(** * pub-mirror: a caching proxy in front of a package registry

    A shallow embedding of [proxy_cached.py]: the handlers are functions on an
    explicit world (the cache directory tree and a log of the calls made to
    the upstream registry); the upstream, the disk faults and Flask's
    [url_for] are parameters.

    Conventions.
    - A path is the list of its components; [os.path.join(p, f)] is
      [p ++ [f]].  Flask's default converter binds [<name>] and [<version>]
      to one non-empty URL segment without a slash, and the model takes each
      as one path component.  The operating system resolves the components
      [.] and [..] and the model does not (nor symbolic links): a statement
      that compares paths holds of the code for names and versions that are
      [plain], and says so.
    - The disk is a finite map from paths to nodes.
    - A call that the operating system may refuse ([os.makedirs], [open],
      [write], [os.replace], [os.remove]) raises when the fault plan of the
      request says so; why it raises (disk full, permissions, ...) is not
      modelled.
    - The world keeps, next to the tree, every state the tree went through
      during a request: what a concurrent reader could have observed.
    - An exception that leaves a view function is the reply [Unhandled]
      (Flask answers 500).
    - The handlers are functions of one request.  Requests that run at the
      same time ([app.run(threaded=True)]) are interleavings of the steps of
      these functions on one tree; [run_steps] runs such an interleaving. *)

From stdpp Require Import gmap strings list fin_maps.
From Stdlib Require Import Ascii Strings.Byte ZArith.
From Stdlib Require String.

Open Scope Z_scope.

(** ** Strings *)

Definition chars (s : string) : list ascii := String.list_ascii_of_string s.

(** [str.endswith] *)
Definition endswith (s suffix : string) : bool :=
  bool_decide (chars suffix `suffix_of` chars s).

(** [str.lower] on the code points below 256 (header names are decoded as
    latin-1): A-Z and the upper-case letters of the latin-1 block. *)
Definition lower_char (c : ascii) : ascii :=
  let n := nat_of_ascii c in
  if ((65 <=? n)%nat && (n <=? 90)%nat)
     || ((192 <=? n)%nat && (n <=? 222)%nat && negb (n =? 215)%nat)
  then ascii_of_nat (n + 32) else c.

Fixpoint lower (s : string) : string :=
  match s with
  | EmptyString => EmptyString
  | String c s' => String (lower_char c) (lower s')
  end.

(** [s.rstrip('/')] *)
Fixpoint rstrip_slash (s : string) : string :=
  match s with
  | EmptyString => EmptyString
  | String c s' =>
      match rstrip_slash s' with
      | EmptyString => if decide (c = "/"%char) then EmptyString else String c EmptyString
      | t => String c t
      end
  end.

(** A path component that the operating system takes as a name: not empty,
    not [.] or [..], and without a slash. *)
Definition plain (s : string) : bool :=
  negb (String.eqb s EmptyString) && negb (String.eqb s ".") && negb (String.eqb s "..")
  && bool_decide ("/"%char ∉ chars s).

(** ** Bytes *)

Abbreviation bytes := (list byte).

(** ** Exceptions and results *)

Inductive exn :=
| OSError
| FileNotFoundError
| IsADirectoryError
| StreamConsumedError
| ChunkedEncodingError
| JSONDecodeError
| AttributeError
| TypeError.

Inductive result (A : Type) :=
| Ok (a : A)
| Raise (e : exn).
Arguments Ok {A} a.
Arguments Raise {A} e.

#[export] Instance result_bind : MBind result := λ A B k r,
  match r with
  | Ok a => k a
  | Raise e => Raise e
  end.

(** ** JSON values, as [r.json()] builds them *)

#[local] Set Warnings "-register-all".

Inductive json :=
| JNull
| JBool (b : bool)
| JNum (n : Z)
| JStr (s : string)
| JArr (items : list json)
| JObj (fields : list (string * json)).

(** Python truthiness of a decoded JSON value ([if not ver]). *)
Definition truthy (v : json) : bool :=
  match v with
  | JNull => false
  | JBool b => b
  | JNum n => negb (n =? 0)
  | JStr s => negb (String.eqb s EmptyString)
  | JArr items => match items with [] => false | _ => true end
  | JObj fields => match fields with [] => false | _ => true end
  end.

(** A [dict] keeps its keys in insertion order; [d[k] = v] overwrites in place
    or appends. *)
Fixpoint dict_get {V} (k : string) (d : list (string * V)) : option V :=
  match d with
  | [] => None
  | (k', v) :: d' => if decide (k' = k) then Some v else dict_get k d'
  end.

Fixpoint dict_set {V} (k : string) (v : V) (d : list (string * V)) : list (string * V) :=
  match d with
  | [] => [(k, v)]
  | (k', v') :: d' =>
      if decide (k' = k) then (k, v) :: d' else (k', v') :: dict_set k v d'
  end.

(** The dict without the key [k], for comparisons "minus one field". *)
Definition dict_without {V} (k : string) (d : list (string * V)) : list (string * V) :=
  filter (λ kv, kv.1 ≠ k) d.

(** ** The cache directory tree *)

Abbreviation path := (list string).

Inductive node :=
| Dir
| File (content : bytes).

Definition path_str (p : path) : string :=
  String.concat "/" (EmptyString :: p).

Definition isdir (d : gmap path node) (p : path) : bool :=
  match d !! p with
  | Some Dir => true
  | _ => false
  end.

Definition exists_ (d : gmap path node) (p : path) : bool :=
  match d !! p with
  | Some _ => true
  | None => false
  end.

Fixpoint strip_prefix (p k : path) : option path :=
  match p, k with
  | [], _ => Some k
  | x :: p', y :: k' => if decide (x = y) then strip_prefix p' k' else None
  | _ :: _, [] => None
  end.

Definition child_name (p k : path) : option string :=
  match strip_prefix p k with
  | Some [f] => Some f
  | _ => None
  end.

(** [os.listdir(p)]: the names directly under [p], in the order the map
    enumerates them (the source relies on no order). *)
Definition listdir (d : gmap path node) (p : path) : list string :=
  omap (λ kv, child_name p kv.1) (map_to_list d).

(** [os.makedirs(p, exist_ok=True)]: every missing ancestor and [p] itself
    become directories; what exists stays. *)
Definition ancestors (p : path) : list path :=
  (λ n, take n p) <$> seq 0 (S (length p)).

Definition makedirs (p : path) (d : gmap path node) : gmap path node :=
  d ∪ list_to_map ((λ q, (q, Dir)) <$> ancestors p).

(** [open(p, 'wb')] creates or truncates. *)
Definition open_wb (p : path) (d : gmap path node) : gmap path node :=
  <[p := File []]> d.

(** [fh.write(data); fh.flush()] *)
Definition append_file (p : path) (data : bytes) (d : gmap path node) : gmap path node :=
  match d !! p with
  | Some (File c) => <[p := File (c ++ data)]> d
  | _ => d
  end.

(** [os.replace(src, dst)] *)
Definition replace_ (src dst : path) (d : gmap path node) : gmap path node :=
  match d !! src with
  | Some n => <[dst := n]> (delete src d)
  | None => d
  end.

(** [shutil.rmtree(p)] *)
Definition rmtree (p : path) (d : gmap path node) : gmap path node :=
  filter (λ kv, ¬ p `prefix_of` kv.1) d.

(** [shutil.rmtree(p)] that raises part-way: it removes children before
    their parent, so what it had removed are whole subtrees below [p]. *)
Definition rmtree_partly (p : path) (removed : list path) (d : gmap path node)
    : gmap path node :=
  foldr (λ q d, if decide (p `prefix_of` q ∧ q ≠ p) then rmtree q d else d) d removed.

(** Every entry other than the root lies in a directory. *)
Definition tree_ok (d : gmap path node) : Prop :=
  ∀ p f, is_Some (d !! (p ++ [f])) → d !! p = Some Dir.

Definition version_dir (cache_dir : path) (name version : string) : path :=
  cache_dir ++ [name; version].

Definition cached_tar_path (cache_dir : path) (name version : string)
    (d : gmap path node) : option path :=
  let vd := version_dir cache_dir name version in
  if isdir d vd then
    (λ f, vd ++ [f]) <$> head (filter (λ f, Is_true (endswith f ".tar.gz")) (listdir d vd))
  else None.

(** ** The upstream registry, as [requests] shows it *)

(** The arguments of one [requests.request] call. *)
Record urequest := {
  q_method : string;
  q_url : string;
  q_params : option (list (string * string));
  q_headers : option (list (string * string));
  q_data : option bytes;
  q_stream : bool;
  q_timeout : Z }.

(** A response object.  [body_chunks] is what [iter_content(chunk_size=8192)]
    yields: the body as [requests] decodes it (a [Content-Encoding] of gzip
    or deflate is undone, so for a compressed response these are not the
    bytes the upstream sent).  [broken] says that the connection fails once
    they are read,
    [headers] is [r.headers.items()], [raw_headers] is
    [r.raw.headers.items()] and [json_] is [r.json()] ([None] when decoding
    raises). *)
Record uresponse := {
  status_code : Z;
  headers : list (string * string);
  raw_headers : list (string * string);
  body_chunks : list bytes;
  broken : bool;
  json_ : option json }.

(** [r.content] *)
Definition content (r : uresponse) : result bytes :=
  if broken r then Raise ChunkedEncodingError else Ok (concat (body_chunks r)).

(** [r.headers.get(key, default)]: the lookup ignores case. *)
Definition headers_get (key default : string) (hs : list (string * string)) : string :=
  match list_find (λ kv, lower kv.1 = lower key) hs with
  | Some (_, kv) => kv.2
  | None => default
  end.

(** The body stream of a response: the chunks not yet yielded, and the flag
    [_content_consumed], which a generator sets when it runs to its end.  A
    stream is read once: [iter_content] on a consumed stream raises, and a
    second generator continues where the first one stopped (a body of known
    length; of a chunked body the second generator yields nothing more). *)
Record stream := {
  pending : list bytes;
  content_consumed : bool }.

Definition iter_content (s : stream) : result (list bytes) :=
  if content_consumed s then Raise StreamConsumedError else Ok (pending s).

(** ** Disk faults *)

(** Which calls of one request raise: [write_raises = Some (i, k)] makes the
    [i]-th write raise after [k] bytes of its chunk reached the file. *)
Record faults := {
  makedirs_raises : bool;
  open_raises : bool;
  write_raises : option (nat * nat);
  replace_raises : bool;
  remove_raises : bool }.

Definition no_faults : faults :=
  {| makedirs_raises := false; open_raises := false; write_raises := None;
     replace_raises := false; remove_raises := false |}.

Definition write_fault (plan : faults) (i : nat) : option nat :=
  match write_raises plan with
  | Some (j, k) => if decide (j = i) then Some k else None
  | None => None
  end.

(** ** The world *)

(** [disk] is the cache tree; [seen] records every state the tree went
    through (newest first), that is, what a reader could have observed;
    [sent] logs the calls made to the upstream. *)
Record world := {
  disk : gmap path node;
  seen : list (gmap path node);
  sent : list urequest }.

Definition put (d : gmap path node) (w : world) : world :=
  {| disk := d; seen := d :: seen w; sent := sent w |}.

Definition note (q : urequest) (w : world) : world :=
  {| disk := disk w; seen := seen w; sent := sent w ++ [q] |}.

(** ** Replies *)

Inductive body :=
| Buffered (b : bytes)
| Streamed (chunks : list bytes) (fails : bool).

(** The bytes that reach the client. *)
Definition delivered (b : body) : bytes :=
  match b with
  | Buffered b => b
  | Streamed chunks _ => concat chunks
  end.

(** What a view function returns: a [Response] with the arguments it was
    built from (status 200 when none is given), [send_file], [jsonify] with
    a status, [abort], or an exception. *)
Inductive reply :=
| Response (b : body) (status : Z) (hs : list (string * string)) (content_type : option string)
| SendFile (p : path) (data : bytes) (as_attachment : bool)
| Jsonify (doc : json) (status : Z)
| Abort (code : Z)
| Unhandled (e : exn).

Definition send_file (p : path) (as_attachment : bool) (w : world) : reply :=
  match disk w !! p with
  | Some (File c) => SendFile p c as_attachment
  | Some Dir => Unhandled IsADirectoryError
  | None => Unhandled FileNotFoundError
  end.

(** An inbound request, as the fallback reads it.  [args] is the query
    string in its order, a key as often as it occurs. *)
Record request := {
  method : string;
  req_headers : list (string * string);
  args : list (string * string);
  get_data : bytes }.

(** [request.args] is a [MultiDict]; [requests] encodes [params=] from its
    [items()], which gives each key once, with the first of its values. *)
Fixpoint multidict_items (args : list (string * string)) : list (string * string) :=
  match args with
  | [] => []
  | kv :: rest => kv :: filter (λ kv', kv'.1 ≠ kv.1) (multidict_items rest)
  end.

(** [{k: v for k, v in items}] *)
Definition dict_of (items : list (string * string)) : list (string * string) :=
  foldl (λ d kv, dict_set kv.1 kv.2 d) [] items.

(** [p + suffix] for a path held as a string: the suffix lands on the last
    component. *)
Fixpoint path_add (p : path) (suffix : string) : path :=
  match p with
  | [] => [suffix]
  | [f] => [f +:+ suffix]
  | x :: p' => x :: path_add p' suffix
  end.

(** The loop [for chunk in r.iter_content(...): if chunk: fh.write(chunk);
    fh.flush()].  [i] counts the writes made so far.  Returns how the loop
    ended, the chunks the generator has not yielded, and the world. *)
Fixpoint write_chunks (plan : faults) (tmpname : path) (i : nat)
    (chunks : list bytes) (fails : bool) (w : world)
    : result () * list bytes * world :=
  match chunks with
  | [] => (if fails then Raise ChunkedEncodingError else Ok (), [], w)
  | chunk :: rest =>
      match chunk with
      | [] => write_chunks plan tmpname i rest fails w
      | _ :: _ =>
          match write_fault plan i with
          | Some k =>
              (Raise OSError, rest, put (append_file tmpname (take k chunk) (disk w)) w)
          | None =>
              write_chunks plan tmpname (S i) rest fails
                (put (append_file tmpname chunk (disk w)) w)
          end
      end
  end.

(** The body of the [try] of [package_archive] (lines 106-112) and of
    [admin_prefetch] (lines 163-168), which are the same statements: open the
    temporary file, copy the stream into it, move it into place.  Returns the
    outcome, the state of the response's stream, and the world. *)
Definition save_archive (plan : faults) (tmpname filename : path)
    (r : uresponse) (w : world) : result () * stream * world :=
  if open_raises plan then
    (Raise OSError, {| pending := body_chunks r; content_consumed := false |}, w)
  else
    let w1 := put (open_wb tmpname (disk w)) w in
    let '(res, rest, w2) := write_chunks plan tmpname 0 (body_chunks r) (broken r) w1 in
    match res with
    | Raise e => (Raise e, {| pending := rest; content_consumed := false |}, w2)
    | Ok _ =>
        let s := {| pending := []; content_consumed := true |} in
        if replace_raises plan then (Raise OSError, s, w2)
        else (Ok (), s, put (replace_ tmpname filename (disk w2)) w2)
    end.

(** [if os.path.exists(tmpname): try: os.remove(tmpname) except: pass] *)
Definition remove_partial (plan : faults) (tmpname : path) (w : world) : world :=
  if exists_ (disk w) tmpname then
    if remove_raises plan then w else put (delete tmpname (disk w)) w
  else w.

Section Proxy.

(** The upstream base URL, the cache root, Flask's
    [url_for('package_archive', name=..., version=..., _external=True)],
    the upstream itself ([None]: the call raises a [RequestException]) and
    [str] of an exception. *)
Variable REAL_PUB : string.
Variable CACHE_DIR : path.
Variable url_for : string → json → string.
Variable net : urequest → option uresponse.
Variable str : exn → string.

(** [requests.request(...)]: without [stream=True] the body is read before
    the call returns, so a failing body fails the call. *)
Definition requests_request (q : urequest) : option uresponse :=
  match net q with
  | Some r => if negb (q_stream q) && broken r then None else Some r
  | None => None
  end.

Definition fetch_upstream (path_ : string) (stream_ : bool)
    (params headers_ : option (list (string * string))) (method_ : string)
    (data : option bytes) (w : world) : option uresponse * world :=
  let url := rstrip_slash REAL_PUB +:+ path_ in
  let q := {| q_method := method_; q_url := url; q_params := params;
              q_headers := headers_; q_data := data; q_stream := stream_;
              q_timeout := 30 |} in
  (requests_request q, note q w).

(** [Response(r.content, status=r.status_code, headers=r.headers.items())] *)
Definition pass_through (r : uresponse) : reply :=
  match content r with
  | Ok b => Response (Buffered b) (status_code r) (headers r) None
  | Raise e => Unhandled e
  end.

(** The body of the loop of [api_package] for one element [v]. *)
Definition rewrite_version (name : string) (v : json) : result json :=
  match v with
  | JObj fields =>
      match dict_get "version" fields with
      | Some ver =>
          if truthy ver
          then Ok (JObj (dict_set "archive_url" (JStr (url_for name ver)) fields))
          else Ok v
      | None => Ok v
      end
  | _ => Raise AttributeError
  end.

Fixpoint rewrite_versions (name : string) (vs : list json) : result (list json) :=
  match vs with
  | [] => Ok []
  | v :: rest =>
      v' ← rewrite_version name v;
      rest' ← rewrite_versions name rest;
      Ok (v' :: rest')
  end.

(** [for v in data.get('versions', []): ...] on the decoded document.  A
    value that is not a list is iterated as Python does: a dict or a string
    yields strings, which have no [get]; the other values are not
    iterable. *)
Definition rewrite_archive_urls (name : string) (data : json) : result json :=
  match data with
  | JObj fields =>
      match dict_get "versions" fields with
      | None => Ok data
      | Some (JArr vs) =>
          vs' ← rewrite_versions name vs;
          Ok (JObj (dict_set "versions" (JArr vs') fields))
      | Some (JObj []) => Ok data
      | Some (JObj (_ :: _)) => Raise AttributeError
      | Some (JStr s) => if String.eqb s EmptyString then Ok data else Raise AttributeError
      | Some _ => Raise TypeError
      end
  | _ => Raise AttributeError
  end.

Definition api_package (name : string) (w : world) : reply * world :=
  let '(r, w) := fetch_upstream ("/api/packages/" +:+ name) false None None "get" None w in
  match r with
  | None => (Abort 502, w)
  | Some r =>
      if negb (status_code r =? 200) then (pass_through r, w)
      else
        match json_ r with
        | None => (Unhandled JSONDecodeError, w)
        | Some data =>
            match rewrite_archive_urls name data with
            | Ok data' => (Jsonify data' 200, w)
            | Raise e => (Unhandled e, w)
            end
        end
  end.

Definition api_package_version (name version : string) (w : world) : reply * world :=
  let '(r, w) :=
    fetch_upstream ("/api/packages/" +:+ name +:+ "/versions/" +:+ version +:+ ".json")
      false None None "get" None w in
  match r with
  | None => (Abort 502, w)
  | Some r =>
      if negb (status_code r =? 200) then (pass_through r, w)
      else
        match json_ r with
        | None => (Unhandled JSONDecodeError, w)
        | Some (JObj fields) =>
            (Jsonify (JObj (dict_set "archive_url"
                              (JStr (url_for name (JStr version))) fields)) 200, w)
        | Some _ => (Unhandled TypeError, w)
        end
  end.

Definition archive_path (name version : string) : path :=
  version_dir CACHE_DIR name version ++ [name +:+ "-" +:+ version +:+ ".tar.gz"].

Definition package_archive (plan : faults) (name version : string) (w : world)
    : reply * world :=
  match cached_tar_path CACHE_DIR name version (disk w) with
  | Some tar => (send_file tar true w, w)
  | None =>
      let upstream_path := "/packages/" +:+ name +:+ "/versions/" +:+ version +:+ ".tar.gz" in
      let '(r, w) := fetch_upstream upstream_path true None None "get" None w in
      match r with
      | None => (Abort 502, w)
      | Some r =>
          if negb (status_code r =? 200) then (pass_through r, w)
          else
            let vd := version_dir CACHE_DIR name version in
            if makedirs_raises plan then (Unhandled OSError, w)
            else
              let w := put (makedirs vd (disk w)) w in
              let filename := archive_path name version in
              let tmpname := path_add filename ".part" in
              match save_archive plan tmpname filename r w with
              | (Ok _, _, w) => (send_file filename true w, w)
              | (Raise _, s, w) =>
                  let w := remove_partial plan tmpname w in
                  match iter_content s with
                  | Ok chunks =>
                      (Response (Streamed chunks (broken r)) 200 []
                         (Some (headers_get "content-type" "application/octet-stream"
                                  (headers r))), w)
                  | Raise e => (Unhandled e, w)
                  end
              end
      end
  end.

(** [rmtree_raises = Some removed] makes [shutil.rmtree] raise after it
    removed the subtrees [removed]; nothing catches the exception. *)
Definition admin_purge (rmtree_raises : option (list path)) (name : string)
    (version : option string) (w : world) : reply * world :=
  let pkg_dir := CACHE_DIR ++ [name] in
  match version with
  | Some (String c v) =>
      let version := String c v in
      let ver_dir := pkg_dir ++ [version] in
      if isdir (disk w) ver_dir then
        match rmtree_raises with
        | Some removed =>
            (Unhandled OSError, put (rmtree_partly ver_dir removed (disk w)) w)
        | None =>
            (Jsonify (JObj [("status", JStr "purged"); ("package", JStr name);
                            ("version", JStr version)]) 200,
             put (rmtree ver_dir (disk w)) w)
        end
      else
        (Jsonify (JObj [("status", JStr "not_found"); ("package", JStr name);
                        ("version", JStr version)]) 404, w)
  | _ =>
      if isdir (disk w) pkg_dir then
        match rmtree_raises with
        | Some removed =>
            (Unhandled OSError, put (rmtree_partly pkg_dir removed (disk w)) w)
        | None =>
            (Jsonify (JObj [("status", JStr "purged"); ("package", JStr name)]) 200,
             put (rmtree pkg_dir (disk w)) w)
        end
      else
        (Jsonify (JObj [("status", JStr "not_found"); ("package", JStr name)]) 404, w)
  end.

Definition admin_prefetch (plan : faults) (name version : string) (w : world)
    : reply * world :=
  let upstream_path := "/packages/" +:+ name +:+ "/versions/" +:+ version +:+ ".tar.gz" in
  let '(r, w) := fetch_upstream upstream_path true None None "get" None w in
  match r with
  | None => (Abort 502, w)
  | Some r =>
      if negb (status_code r =? 200) then (pass_through r, w)
      else
        let vd := version_dir CACHE_DIR name version in
        if makedirs_raises plan then (Unhandled OSError, w)
        else
          let w := put (makedirs vd (disk w)) w in
          let filename := archive_path name version in
          let tmpname := path_add filename ".part" in
          match save_archive plan tmpname filename r w with
          | (Ok _, _, w) =>
              (Jsonify (JObj [("status", JStr "cached"); ("package", JStr name);
                              ("version", JStr version);
                              ("path", JStr (path_str filename))]) 200, w)
          | (Raise e, _, w) =>
              let w := remove_partial plan tmpname w in
              (Jsonify (JObj [("status", JStr "error"); ("error", JStr (str e))]) 500, w)
          end
  end.

Definition proxy_fallback (path_ : string) (req : request) (w : world)
    : reply * world :=
  let upstream := rstrip_slash REAL_PUB +:+ "/" +:+ path_ in
  let headers_ := dict_of (filter (λ kv, lower kv.1 ≠ "host") (req_headers req)) in
  let q := {| q_method := method req; q_url := upstream;
              q_params := Some (multidict_items (args req));
              q_headers := Some headers_; q_data := Some (get_data req);
              q_stream := true; q_timeout := 30 |} in
  let w := note q w in
  match requests_request q with
  | None => (Abort 502, w)
  | Some resp =>
      let excluded := ["content-encoding"; "transfer-encoding"; "connection"] in
      let headers_out := filter (λ kv, lower kv.1 ∉ excluded) (raw_headers resp) in
      (Response (Streamed (body_chunks resp) (broken resp)) (status_code resp)
         headers_out None, w)
  end.

(** The two routes of the fallback (lines 178-179) name no [methods]: Flask
    registers them for GET, adds HEAD, and answers OPTIONS itself with an
    [Allow] header (its text is the parameter [allow]).  A request with any
    other method is answered 405 and the view function is not called. *)
Definition fallback_route (allow : string) (path_ : string) (req : request) (w : world)
    : reply * world :=
  if decide (method req ∈ ["GET"; "HEAD"]) then proxy_fallback path_ req w
  else if decide (method req = "OPTIONS") then
    (Response (Buffered []) 200 [("Allow", allow)] None, w)
  else (Abort 405, w).

End Proxy.

(** ** Vocabulary of the statements *)

(** The call [fetch_upstream(path, stream=...)] makes with its defaults. *)
Definition get_request (REAL_PUB path_ : string) (stream_ : bool) : urequest :=
  {| q_method := "get"; q_url := rstrip_slash REAL_PUB +:+ path_; q_params := None;
     q_headers := None; q_data := None; q_stream := stream_; q_timeout := 30 |}.

(** The upstream path of an archive. *)
Definition archive_upstream_path (name version : string) : string :=
  "/packages/" +:+ name +:+ "/versions/" +:+ version +:+ ".tar.gz".

(** One version entry and its rewritten form: same object, except that
    [archive_url] is the proxy's URL for the entry's own version. *)
Definition rewritten (url_for : string → json → string) (name : string)
    (v v' : json) : Prop :=
  ∃ fields fields' ver,
    v = JObj fields ∧ v' = JObj fields' ∧
    dict_get "version" fields = Some ver ∧
    dict_get "archive_url" fields' = Some (JStr (url_for name ver)) ∧
    dict_without "archive_url" fields' = dict_without "archive_url" fields.

(** A version entry: an object with a version that Python takes as true and
    an archive link. *)
Definition version_entry (v : json) : Prop :=
  ∃ fields ver link,
    v = JObj fields ∧ dict_get "version" fields = Some ver ∧ truthy ver = true ∧
    dict_get "archive_url" fields = Some link.


(** The call the generic fallback is to make for an inbound request: same
    method, query and body, and the inbound headers without [Host]. *)
Definition replayed (REAL_PUB path_ : string) (req : request) : urequest :=
  {| q_method := method req;
     q_url := rstrip_slash REAL_PUB +:+ "/" +:+ path_;
     q_params := Some (args req);
     q_headers := Some (filter (λ kv, lower kv.1 ≠ "host") (req_headers req));
     q_data := Some (get_data req);
     q_stream := true;
     q_timeout := 30 |}.

Definition hop_by_hop : list string :=
  ["content-encoding"; "transfer-encoding"; "connection"].

(** The writes the copy loop makes for a body: one per non-empty chunk. *)
Definition writes_needed (chunks : list bytes) : nat :=
  length (filter (λ c, c ≠ []) chunks).

(** The plan makes a write or the rename of this population fail: [open]
    raises, or the write that raises is one the loop gets to, or
    [os.replace] raises. *)
Definition write_or_rename_fails (plan : faults) (r : uresponse) : bool :=
  open_raises plan
  || match write_raises plan with
     | Some (i, _) => bool_decide (i < writes_needed (body_chunks r))%nat
     | None => false
     end
  || replace_raises plan.

(** What a reader can see of one population: away from the two files the
    tree is [base]; the final file is as it was in [base], or holds the whole
    body, in which case nothing failed. *)
Definition atomic_view (plan : faults) (tmp fin : path) (r : uresponse)
    (base st : gmap path node) : Prop :=
  (∀ k, k ≠ tmp → k ≠ fin → st !! k = base !! k) ∧
  (st !! fin = base !! fin ∨
   st !! fin = Some (File (concat (body_chunks r))) ∧ st !! tmp = None ∧
   broken r = false ∧ write_or_rename_fails plan r = false).

(** What [admin_purge] looks at: the version's directory, or the package's
    when no version is given. *)
Definition purge_dir (CACHE_DIR : path) (name : string) (version : option string) : path :=
  match version with
  | Some (String c v) => CACHE_DIR ++ [name; String c v]
  | _ => CACHE_DIR ++ [name]
  end.

(** The JSON result of a purge. *)
Definition purge_doc (status name : string) (version : option string) : json :=
  JObj ([("status", JStr status); ("package", JStr name)]
          ++ match version with
             | Some (String c v) => [("version", JStr (String c v))]
             | _ => []
             end).

(** The world after [n] more purges of the same key. *)
Definition purged_again (CACHE_DIR : path) (rmtree_raises : option (list path))
    (name : string) (version : option string) (n : nat) (w : world) : world :=
  Nat.iter n (λ w, (admin_purge CACHE_DIR rmtree_raises name version w).2) w.

(** ** A small instance, for examples *)

Module Demo.

Definition REAL_PUB : string := "https://pub.dev".
Definition CACHE_DIR : path := ["srv"; "pub"; "packages"].

Definition url_for (name : string) (ver : json) : string :=
  "http://mirror.local/packages/" +:+ name +:+ "/versions/"
    +:+ match ver with JStr s => s | _ => EmptyString end +:+ ".tar.gz".

Definition str (e : exn) : string :=
  match e with
  | OSError => "OSError"
  | FileNotFoundError => "FileNotFoundError"
  | IsADirectoryError => "IsADirectoryError"
  | StreamConsumedError => "StreamConsumedError"
  | ChunkedEncodingError => "ChunkedEncodingError"
  | JSONDecodeError => "JSONDecodeError"
  | AttributeError => "AttributeError"
  | TypeError => "TypeError"
  end.

Definition empty_world : world := {| disk := ∅; seen := []; sent := [] |}.

(** An upstream that cannot be reached. *)
Definition unreachable (q : urequest) : option uresponse := None.

(** An upstream that answers every call with [r]. *)
Definition always (r : uresponse) (q : urequest) : option uresponse := Some r.

(** An archive of five bytes in three chunks. *)
Definition archive_response : uresponse :=
  {| status_code := 200;
     headers := [("Content-Type", "application/gzip"); ("Connection", "close")];
     raw_headers := [("Content-Type", "application/gzip"); ("Connection", "close")];
     body_chunks := [[x01; x02]; [x03]; [x04; x05]];
     broken := false;
     json_ := None |}.

(** The same body under status 206, a 2xx status other than 200. *)
Definition partial_content_response : uresponse :=
  {| status_code := 206;
     headers := [("Content-Type", "application/gzip"); ("Connection", "close")];
     raw_headers := [("Content-Type", "application/gzip"); ("Connection", "close")];
     body_chunks := [[x01; x02]; [x03]; [x04; x05]];
     broken := false;
     json_ := None |}.

Definition package_doc : json :=
  JObj [("name", JStr "foo");
        ("latest", JObj [("version", JStr "1.1.0");
                         ("archive_url", JStr "https://pub.dev/a/foo-1.1.0.tar.gz")]);
        ("versions",
         JArr [JObj [("version", JStr "1.0.0");
                     ("archive_url", JStr "https://pub.dev/a/foo-1.0.0.tar.gz");
                     ("published", JStr "2020-01-01")];
               JObj [("version", JStr "1.1.0");
                     ("archive_url", JStr "https://pub.dev/a/foo-1.1.0.tar.gz")]])].

Definition metadata_response (doc : json) : uresponse :=
  {| status_code := 200;
     headers := [("Content-Type", "application/json")];
     raw_headers := [("Content-Type", "application/json")];
     body_chunks := [];
     broken := false;
     json_ := Some doc |}.

(** The second write of the request fails before any byte of it is
    stored. *)
Definition second_write_fails : faults :=
  {| makedirs_raises := false; open_raises := false; write_raises := Some (1%nat, 0%nat);
     replace_raises := false; remove_raises := false |}.

(** The second write fails, and so does the removal of the temporary
    file. *)
Definition second_write_and_remove_fail : faults :=
  {| makedirs_raises := false; open_raises := false; write_raises := Some (1%nat, 0%nat);
     replace_raises := false; remove_raises := true |}.

Definition open_fails : faults :=
  {| makedirs_raises := false; open_raises := true; write_raises := None;
     replace_raises := false; remove_raises := false |}.

Definition replace_fails : faults :=
  {| makedirs_raises := false; open_raises := false; write_raises := None;
     replace_raises := true; remove_raises := false |}.

(** A cache that holds an archive of foo 1.0.0. *)
Definition cached_world : world :=
  {| disk := <[archive_path CACHE_DIR "foo" "1.0.0" := File [xff]]>
               (makedirs (version_dir CACHE_DIR "foo" "1.0.0") ∅);
     seen := []; sent := [] |}.

Definition inbound : request :=
  {| method := "POST";
     req_headers := [("Host", "mirror.local"); ("Accept", "*/*"); ("User-Agent", "dart")];
     args := [("q", "x")];
     get_data := [x0a] |}.

End Demo.

(** ** Vocabulary of the further statements *)

(** The world [w'] is the one a population for (name, version) leaves from
    [w]: a prefetch, or a request for the archive that is a miss. *)
Definition populated_from (REAL_PUB : string) (CACHE_DIR : path)
    (net : urequest → option uresponse) (str : exn → string) (plan : faults)
    (name version : string) (w w' : world) : Prop :=
  w' = (admin_prefetch REAL_PUB CACHE_DIR net str plan name version w).2 ∨
  cached_tar_path CACHE_DIR name version (disk w) = None ∧
  w' = (package_archive REAL_PUB CACHE_DIR net plan name version w).2.

(** The only archive a lookup can find for the key is the final file. *)
Definition only_final (CACHE_DIR : path) (name version : string)
    (d : gmap path node) : Prop :=
  ∀ f, is_Some (d !! (version_dir CACHE_DIR name version ++ [f])) →
       endswith f ".tar.gz" = true →
       version_dir CACHE_DIR name version ++ [f] = archive_path CACHE_DIR name version.

(** Nothing in the tree is in the way of a population for the key: no file
    where a directory is to be made, no directory where the temporary or
    the final file is to be written.  (On such a tree [os.makedirs], [open]
    or [os.replace] raise.) *)
Definition creatable (CACHE_DIR : path) (name version : string)
    (d : gmap path node) : Prop :=
  (∀ n c, d !! take n (version_dir CACHE_DIR name version) ≠ Some (File c)) ∧
  d !! path_add (archive_path CACHE_DIR name version) ".part" ≠ Some Dir ∧
  d !! archive_path CACHE_DIR name version ≠ Some Dir.

(** An entry of a versions list with a version that Python takes as
    true. *)
Definition has_version (v : json) : Prop :=
  ∃ fields ver, v = JObj fields ∧ dict_get "version" fields = Some ver ∧ truthy ver = true.

Definition is_object (v : json) : Prop := ∃ fields, v = JObj fields.

(** A document without its archive links, at any depth: what two documents
    are compared by when they are to be equal but for these links. *)
Fixpoint strip_links (v : json) : json :=
  match v with
  | JArr items => JArr (map strip_links items)
  | JObj fields =>
      JObj ((fix go (fs : list (string * json)) : list (string * json) :=
               match fs with
               | [] => []
               | (k, x) :: fs' =>
                   if decide (k = "archive_url") then go fs' else (k, strip_links x) :: go fs'
               end) fields)
  | _ => v
  end.

(** The archive links of a document, at any depth, in document order. *)
Fixpoint links (v : json) : list json :=
  match v with
  | JArr items => concat (map links items)
  | JObj fields =>
      (fix go (fs : list (string * json)) : list json :=
         match fs with
         | [] => []
         | (k, x) :: fs' =>
             if decide (k = "archive_url") then x :: go fs' else links x ++ go fs'
         end) fields
  | _ => []
  end.

(** ** Populations that run at the same time *)

(** The file-system calls of a population that meets no fault, in the order
    the handler makes them (lines 103-112 and 159-168). *)
Inductive fs_step :=
| Makedirs
| OpenTmp
| WriteTmp (chunk : bytes)
| ReplaceTmp.

Definition population_steps (r : uresponse) : list fs_step :=
  Makedirs :: OpenTmp :: (WriteTmp <$> filter (λ c, c ≠ []) (body_chunks r)) ++ [ReplaceTmp].

(** The temporary name is made of the key alone, so every population of a
    key works on the same two paths. *)
Definition run_step (CACHE_DIR : path) (name version : string) (s : fs_step)
    (d : gmap path node) : gmap path node :=
  let filename := archive_path CACHE_DIR name version in
  let tmpname := path_add filename ".part" in
  match s with
  | Makedirs => makedirs (version_dir CACHE_DIR name version) d
  | OpenTmp => open_wb tmpname d
  | WriteTmp chunk => append_file tmpname chunk d
  | ReplaceTmp => replace_ tmpname filename d
  end.

(** A schedule of steps, run on one tree.  A write goes to the file at the
    temporary path; that is the file its writer opened as long as no other
    request opened or moved it since, which is so in the schedules below. *)
Definition run_steps (CACHE_DIR : path) (name version : string) (ss : list fs_step)
    (d : gmap path node) : gmap path node :=
  foldl (λ d s, run_step CACHE_DIR name version s d) d ss.

(** [l] takes the elements of [a] and of [b], each list in its order. *)
Inductive interleaving {A} : list A → list A → list A → Prop :=
| interleaving_nil : interleaving [] [] []
| interleaving_left x a b l : interleaving a b l → interleaving (x :: a) b (x :: l)
| interleaving_right x a b l : interleaving a b l → interleaving a (x :: b) (x :: l).

(** The steps of the first population up to its rename, then the second
    population up to its [open], then the rename of the first. *)
Definition truncating_schedule (r : uresponse) : list fs_step :=
  Makedirs :: OpenTmp :: (WriteTmp <$> filter (λ c, c ≠ []) (body_chunks r))
    ++ [Makedirs; OpenTmp; ReplaceTmp].

(** ** More of the small instance *)

Module Sample.

(** A package document whose second entry has no version. *)
Definition ragged_doc_fields : list (string * json) :=
  [("name", JStr "foo");
   ("versions",
    JArr [JObj [("version", JStr "1.0.0");
                ("archive_url", JStr "https://pub.dev/a/foo-1.0.0.tar.gz")];
          JObj [("archive_url", JStr "https://pub.dev/a/foo-draft.tar.gz")]])].

(** A package document whose list of versions holds a string. *)
Definition broken_doc_fields : list (string * json) :=
  [("name", JStr "foo"); ("versions", JArr [JStr "1.0.0"])].

(** The upstream does not know the package. *)
(** A GET with two query keys, and one with a key that occurs twice. *)
Definition inbound_get : request :=
  {| method := "GET";
     req_headers := [("Host", "mirror.local"); ("Accept", "*/*"); ("User-Agent", "dart")];
     args := [("q", "a"); ("page", "2")];
     get_data := [] |}.

Definition inbound_repeated_key : request :=
  {| method := "GET";
     req_headers := [("Host", "mirror.local")];
     args := [("q", "a"); ("q", "b")];
     get_data := [] |}.

Definition not_found_response : uresponse :=
  {| status_code := 404;
     headers := [("Content-Type", "application/json")];
     raw_headers := [("Content-Type", "application/json")];
     body_chunks := [[x7b; x7d]];
     broken := false;
     json_ := Some (JObj []) |}.

End Sample.

(** * Properties *)

(** ** Dicts *)

Lemma dict_get_set_eq {V} (k : string) (v : V) d :
  dict_get k (dict_set k v d) = Some v.
Proof.
  induction d as [|[k' v'] d IH]; simpl.
  - by rewrite decide_True.
  - destruct (decide (k' = k)) as [->|Hne]; simpl.
    + by rewrite decide_True.
    + by rewrite decide_False.
Qed.

Lemma dict_get_set_ne {V} (k k0 : string) (v : V) d :
  k0 ≠ k → dict_get k0 (dict_set k v d) = dict_get k0 d.
Proof.
  intros Hne. induction d as [|[k' v'] d IH]; simpl.
  - by rewrite decide_False.
  - destruct (decide (k' = k)) as [->|Hk]; simpl.
    + by rewrite !decide_False by done.
    + by rewrite IH.
Qed.

Lemma dict_without_set {V} (k : string) (v : V) d :
  dict_without k (dict_set k v d) = dict_without k d.
Proof.
  unfold dict_without. induction d as [|[k' v'] d IH]; simpl.
  - by rewrite filter_cons_False by (simpl; tauto).
  - destruct (decide (k' = k)) as [->|Hk].
    + by rewrite !filter_cons_False by (simpl; tauto).
    + rewrite !filter_cons_True by done. by rewrite IH.
Qed.

Lemma dict_set_fresh {V} (k : string) (v : V) d :
  k ∉ d.*1 → dict_set k v d = d ++ [(k, v)].
Proof.
  induction d as [|[k' v'] d IH]; simpl; [done|].
  intros Hk. apply not_elem_of_cons in Hk as [Hne Hk].
  rewrite decide_False by done. by rewrite IH.
Qed.

Lemma dict_of_foldl (acc items : list (string * string)) :
  NoDup ((acc ++ items).*1) →
  foldl (λ d kv, dict_set kv.1 kv.2 d) acc items = acc ++ items.
Proof.
  revert acc. induction items as [|[k v] items IH]; intros acc Hnd; simpl.
  - by rewrite app_nil_r.
  - rewrite dict_set_fresh.
    + rewrite IH; rewrite <- app_assoc; done.
    + rewrite fmap_app in Hnd. apply NoDup_app in Hnd as (_ & Hdis & _).
      intros Hin. apply (Hdis k Hin). simpl. left.
Qed.

(** A dict comprehension over items with distinct keys keeps them all, in
    order. *)
Lemma dict_of_NoDup (items : list (string * string)) :
  NoDup (items.*1) → dict_of items = items.
Proof. intros Hnd. unfold dict_of. by rewrite dict_of_foldl. Qed.

Lemma multidict_items_NoDup (args : list (string * string)) :
  NoDup args.*1 → multidict_items args = args.
Proof.
  induction args as [|kv rest IH]; [done|].
  rewrite fmap_cons, NoDup_cons. intros [Hk Hnd]. simpl. rewrite (IH Hnd). f_equal.
  clear IH Hnd. induction rest as [|kv' rest IH]; [done|].
  rewrite fmap_cons, not_elem_of_cons in Hk. destruct Hk as [Hne Hk].
  rewrite filter_cons_True by (simpl; congruence). by rewrite IH.
Qed.

(** ** Strings and paths *)

Lemma chars_app (s t : string) : chars (s +:+ t) = chars s ++ chars t.
Proof. induction s as [|c s IH]; simpl; [done|]. unfold chars in *. simpl. by rewrite IH. Qed.

(** A name that ends in [.part] does not end in [.tar.gz]. *)
Lemma endswith_part (f : string) : endswith (f +:+ ".part") ".tar.gz" = false.
Proof.
  unfold endswith. apply bool_decide_eq_false. rewrite chars_app.
  change (chars ".part") with ((chars ".par") ++ ["t"%char]).
  change (chars ".tar.gz") with ((chars ".tar.g") ++ ["z"%char]).
  rewrite app_assoc. intros Hs. by apply suffix_snoc_inv_1 in Hs.
Qed.

Lemma part_ne (f : string) : f +:+ ".part" ≠ f.
Proof.
  intros Heq. apply (f_equal chars) in Heq. rewrite chars_app in Heq.
  rewrite <- (app_nil_r (chars f)) in Heq at 2. by apply app_inv_head in Heq.
Qed.

Lemma path_add_snoc (p : path) (f suffix : string) :
  path_add (p ++ [f]) suffix = p ++ [f +:+ suffix].
Proof.
  induction p as [|x p IH]; [done|].
  change ((x :: p) ++ [f]) with (x :: (p ++ [f])).
  destruct p as [|y p]; simpl in *; by rewrite ?IH.
Qed.

Lemma strip_prefix_Some (p k r : path) : strip_prefix p k = Some r ↔ k = p ++ r.
Proof.
  revert k. induction p as [|x p IH]; intros k; simpl.
  - split; [by intros [= ->]|by intros ->].
  - destruct k as [|y k]; [split; [done|by intros ?]|].
    destruct (decide (x = y)) as [->|Hne].
    + rewrite IH. split; [by intros ->|by intros [= ->]].
    + split; [done|]. intros [= -> _]. done.
Qed.

Lemma child_name_Some (p k : path) (f : string) :
  child_name p k = Some f ↔ k = p ++ [f].
Proof.
  unfold child_name. split.
  - destruct (strip_prefix p k) as [[|g [|??]]|] eqn:Hs; try done.
    intros [= ->]. by apply strip_prefix_Some.
  - intros ->. assert (strip_prefix p (p ++ [f]) = Some [f]) as ->; [|done].
    by apply strip_prefix_Some.
Qed.

(** ** The cache tree *)

Lemma elem_of_listdir (d : gmap path node) (p : path) (f : string) :
  f ∈ listdir d p ↔ is_Some (d !! (p ++ [f])).
Proof.
  unfold listdir. rewrite list_elem_of_omap. split.
  - intros ([k n] & Hin & Hc). simpl in Hc. apply child_name_Some in Hc as ->.
    apply elem_of_map_to_list in Hin. by eexists.
  - intros [n Hn]. exists (p ++ [f], n). split.
    + by apply elem_of_map_to_list.
    + by apply child_name_Some.
Qed.

(** A lookup that finds something finds an entry of the version's directory
    whose name ends in [.tar.gz]. *)
Lemma cached_tar_path_Some (C : path) (name version : string) (d : gmap path node) (q : path) :
  cached_tar_path C name version d = Some q →
  ∃ f, q = version_dir C name version ++ [f] ∧ is_Some (d !! q) ∧
       endswith f ".tar.gz" = true.
Proof.
  unfold cached_tar_path. destruct (isdir d _); [|done].
  destruct (head _) as [f|] eqn:Hh; [|done]. intros [= <-].
  exists f. apply head_Some_elem_of, list_elem_of_filter in Hh as [He Hin].
  apply elem_of_listdir in Hin. repeat split; try done. by apply Is_true_true.
Qed.

Lemma cached_tar_path_None_intro (C : path) (name version : string) (d : gmap path node) :
  (∀ f, is_Some (d !! (version_dir C name version ++ [f])) → endswith f ".tar.gz" = false) →
  cached_tar_path C name version d = None.
Proof.
  intros Hno. destruct (cached_tar_path C name version d) as [q|] eqn:Hq; [|done].
  apply cached_tar_path_Some in Hq as (f & -> & Hin & He).
  apply Hno in Hin. congruence.
Qed.

Lemma cached_tar_path_None_elim (C : path) (name version : string) (d : gmap path node) :
  tree_ok d →
  cached_tar_path C name version d = None →
  ∀ f, is_Some (d !! (version_dir C name version ++ [f])) → endswith f ".tar.gz" = false.
Proof.
  intros Hok Hnone f Hf. unfold cached_tar_path in Hnone.
  unfold isdir in Hnone. rewrite (Hok _ _ Hf) in Hnone.
  apply fmap_None, head_None in Hnone.
  destruct (endswith f ".tar.gz") eqn:He; [|done].
  assert (f ∈ filter (λ f, Is_true (endswith f ".tar.gz"))
            (listdir d (version_dir C name version))) as Hin.
  { apply list_elem_of_filter. split; [by apply Is_true_true|by apply elem_of_listdir]. }
  rewrite Hnone in Hin. by apply elem_of_nil in Hin.
Qed.

Lemma not_ancestor_longer (p k : path) :
  (length p < length k)%nat → k ∉ ((λ q, (q, Dir)) <$> ancestors p).*1.
Proof.
  intros Hlen Hin. rewrite <- list_fmap_compose in Hin.
  apply list_elem_of_fmap in Hin as (q & -> & Hq). simpl in Hlen.
  unfold ancestors in Hq. apply list_elem_of_fmap in Hq as (n & -> & _).
  rewrite length_take in Hlen. lia.
Qed.

(** [makedirs] leaves what lies under the directory alone. *)
Lemma makedirs_lookup_below (p : path) (d : gmap path node) (k : path) :
  (length p < length k)%nat → makedirs p d !! k = d !! k.
Proof.
  intros Hlen. unfold makedirs. apply lookup_union_l.
  by apply not_elem_of_list_to_map_1, not_ancestor_longer.
Qed.

Lemma rmtree_lookup_under (p k : path) (d : gmap path node) :
  p `prefix_of` k → rmtree p d !! k = None.
Proof.
  intros Hp. unfold rmtree. apply map_lookup_filter_None.
  destruct (d !! k) as [n|]; [right|by left]. intros x _ Hn. by apply Hn.
Qed.

Lemma rmtree_lookup_other (p k : path) (d : gmap path node) :
  ¬ p `prefix_of` k → rmtree p d !! k = d !! k.
Proof.
  intros Hp. unfold rmtree. destruct (d !! k) as [n|] eqn:Hk.
  - by apply map_lookup_filter_Some.
  - apply map_lookup_filter_None. by left.
Qed.

Lemma isdir_rmtree (p : path) (d : gmap path node) : isdir (rmtree p d) p = false.
Proof. unfold isdir. by rewrite rmtree_lookup_under. Qed.

(** ** Populating the cache *)

Lemma append_file_lookup_ne (p k : path) (data : bytes) (d : gmap path node) :
  k ≠ p → append_file p data d !! k = d !! k.
Proof.
  intros Hne. unfold append_file. destruct (d !! p) as [[|c]|]; try done.
  by rewrite lookup_insert_ne.
Qed.

Lemma append_file_lookup_eq (p : path) (data c : bytes) (d : gmap path node) :
  d !! p = Some (File c) → append_file p data d !! p = Some (File (c ++ data)).
Proof. intros Hp. unfold append_file. rewrite Hp. apply lookup_insert_eq. Qed.

(** The copy loop touches nothing but the temporary file, and makes no
    upstream call. *)
Lemma write_chunks_frame plan tmp chunks :
  ∀ i fails w res rest w',
    write_chunks plan tmp i chunks fails w = (res, rest, w') →
    sent w' = sent w ∧
    (∀ k, k ≠ tmp → disk w' !! k = disk w !! k) ∧
    (∀ st, st ∈ seen w' → st ∈ seen w ∨ ∀ k, k ≠ tmp → st !! k = disk w !! k).
Proof.
  induction chunks as [|chunk chunks IH]; intros i fails w res rest w' Hrun; simpl in Hrun.
  - injection Hrun as <- <- <-. auto.
  - destruct chunk as [|b chunk]; [by eapply IH|].
    destruct (write_fault plan i) as [n|].
    + injection Hrun as <- <- <-. simpl. repeat split.
      * intros k Hk. by apply append_file_lookup_ne.
      * intros st [->|Hst]%elem_of_cons; [right|by left].
        intros k Hk. by apply append_file_lookup_ne.
    + apply IH in Hrun as (Hsent & Hframe & Hseen). simpl in *. repeat split.
      * done.
      * intros k Hk. rewrite Hframe by done. by apply append_file_lookup_ne.
      * intros st Hst. destruct (Hseen st Hst) as [[->|?]%elem_of_cons|Hfr].
        -- right. intros k Hk. by apply append_file_lookup_ne.
        -- by left.
        -- right. intros k Hk. rewrite Hfr by done. by apply append_file_lookup_ne.
Qed.

Lemma writes_needed_cons_nil chunks : writes_needed ([] :: chunks) = writes_needed chunks.
Proof. unfold writes_needed. by rewrite filter_cons_False by (intros ?; done). Qed.

Lemma writes_needed_cons b chunk chunks :
  writes_needed ((b :: chunk) :: chunks) = S (writes_needed chunks).
Proof. unfold writes_needed. by rewrite filter_cons_True by done. Qed.

(** When the copy loop ends normally, the stream did not fail, every chunk
    was yielded, the temporary file holds the whole body, and no write of
    the loop was one that the plan makes raise. *)
Lemma write_chunks_Ok plan tmp chunks :
  ∀ i fails w c u rest w',
    disk w !! tmp = Some (File c) →
    write_chunks plan tmp i chunks fails w = (Ok u, rest, w') →
    fails = false ∧ rest = [] ∧
    disk w' !! tmp = Some (File (c ++ concat chunks)) ∧
    ∀ j n, write_raises plan = Some (j, n) →
           ¬ (i ≤ j < i + writes_needed chunks)%nat.
Proof.
  induction chunks as [|chunk chunks IH]; intros i fails w c u rest w' Htmp Hrun;
    simpl in Hrun.
  - destruct fails; [done|]. injection Hrun as <- <- <-. simpl.
    rewrite app_nil_r. split; [done|split; [done|split; [done|]]].
    intros j n _. unfold writes_needed. simpl. lia.
  - destruct chunk as [|b chunk].
    + rewrite writes_needed_cons_nil. simpl. by eapply IH.
    + destruct (write_fault plan i) as [n|] eqn:Hf; [done|].
      eapply IH in Hrun as (-> & -> & Hc & Hj);
        [|simpl; by apply append_file_lookup_eq].
      rewrite writes_needed_cons. split; [done|split; [done|split]].
      * rewrite Hc. by rewrite <- app_assoc.
      * intros j n Hplan [Hlo Hhi]. destruct (decide (j = i)) as [->|Hne].
        -- unfold write_fault in Hf. rewrite Hplan in Hf. by rewrite decide_True in Hf.
        -- apply (Hj j n Hplan). lia.
Qed.

(** When the loop gets to the write that the plan makes raise, it stops
    there: the chunks before it and the chunk of the failed write are
    consumed, the ones after it are not. *)
Lemma write_chunks_fault plan tmp chunks :
  ∀ i fails w j n,
    write_raises plan = Some (j, n) →
    (i ≤ j < i + writes_needed chunks)%nat →
    ∃ before chunk rest w',
      chunks = before ++ chunk :: rest ∧ chunk ≠ [] ∧
      write_chunks plan tmp i chunks fails w = (Raise OSError, rest, w').
Proof.
  induction chunks as [|chunk chunks IH]; intros i fails w j n Hplan Hj.
  - unfold writes_needed in Hj. simpl in Hj. lia.
  - destruct chunk as [|b chunk].
    + rewrite writes_needed_cons_nil in Hj.
      destruct (IH i fails w j n Hplan Hj) as (before & c & rest & w' & -> & Hc & Hrun).
      exists ([] :: before), c, rest, w'. by rewrite <- Hrun.
    + rewrite writes_needed_cons in Hj. simpl. unfold write_fault. rewrite Hplan.
      destruct (decide (j = i)) as [->|Hne].
      * by exists [], (b :: chunk), chunks; eexists.
      * edestruct (IH (S i) fails) as (before & c & rest & w' & -> & Hc & Hrun);
          [exact Hplan|lia|].
        exists ((b :: chunk) :: before), c, rest, w'. by rewrite Hrun.
Qed.

(** When the write that the plan makes raise is not one the loop gets to,
    the loop yields every chunk and ends as the stream does. *)
Lemma write_chunks_unreached plan tmp chunks :
  ∀ i fails w,
    (∀ j n, write_raises plan = Some (j, n) → (i + writes_needed chunks ≤ j)%nat) →
    ∃ w', write_chunks plan tmp i chunks fails w
          = (if fails then Raise ChunkedEncodingError else Ok (), [], w').
Proof.
  induction chunks as [|chunk chunks IH]; intros i fails w Hplan; simpl.
  - by eexists.
  - destruct chunk as [|b chunk].
    + apply IH. intros j n Hj. rewrite <- writes_needed_cons_nil. eauto.
    + assert (write_fault plan i = None) as ->.
      { unfold write_fault. destruct (write_raises plan) as [[j n]|] eqn:Hj; [|done].
        specialize (Hplan j n eq_refl). rewrite writes_needed_cons in Hplan.
        rewrite decide_False; [done|lia]. }
      apply IH. intros j n Hj. specialize (Hplan j n Hj).
      rewrite writes_needed_cons in Hplan. lia.
Qed.

(** When no write and no rename fails and the stream does not fail, the
    [try] ends normally. *)
Lemma save_archive_Ok plan tmp fin r w :
  write_or_rename_fails plan r = false →
  broken r = false →
  ∃ s w', save_archive plan tmp fin r w = (Ok (), s, w').
Proof.
  unfold write_or_rename_fails, save_archive. intros Hpl Hbr.
  apply orb_false_elim in Hpl as [[Hopen Hwr]%orb_false_elim Hrep].
  rewrite Hopen, Hrep, Hbr.
  edestruct (write_chunks_unreached plan tmp (body_chunks r) 0 false) as [w2 ->].
  - intros j n Hj. rewrite Hj in Hwr. apply bool_decide_eq_false in Hwr. simpl. lia.
  - by eexists _, _.
Qed.

Lemma replace_lookup_dst (src dst : path) (d : gmap path node) n :
  d !! src = Some n → replace_ src dst d !! dst = Some n.
Proof. intros Hs. unfold replace_. rewrite Hs. apply lookup_insert_eq. Qed.

Lemma replace_lookup_src (src dst : path) (d : gmap path node) n :
  src ≠ dst → d !! src = Some n → replace_ src dst d !! src = None.
Proof.
  intros Hne Hs. unfold replace_. rewrite Hs.
  rewrite lookup_insert_ne by done. apply lookup_delete_eq.
Qed.

Lemma replace_lookup_other (src dst k : path) (d : gmap path node) :
  k ≠ src → k ≠ dst → replace_ src dst d !! k = d !! k.
Proof.
  intros Hs Hd. unfold replace_. destruct (d !! src); [|done].
  rewrite lookup_insert_ne by done. by apply lookup_delete_ne.
Qed.

Lemma save_archive_spec plan tmp fin r w res s w' :
  tmp ≠ fin →
  save_archive plan tmp fin r w = (res, s, w') →
  sent w' = sent w ∧
  (∀ st, st ∈ seen w' → st ∈ seen w ∨ atomic_view plan tmp fin r (disk w) st) ∧
  (∀ k, k ≠ tmp → k ≠ fin → disk w' !! k = disk w !! k) ∧
  match res with
  | Ok _ => disk w' !! fin = Some (File (concat (body_chunks r))) ∧
            disk w' !! tmp = None ∧
            broken r = false ∧ write_or_rename_fails plan r = false ∧
            content_consumed s = true
  | Raise _ => disk w' !! fin = disk w !! fin
  end.
Proof.
  intros Hne. unfold save_archive. destruct (open_raises plan) eqn:Hopen.
  { intros [= <- <- <-]. repeat split; auto. }
  destruct (write_chunks _ _ _ _ _ _) as [[res1 rest] w2] eqn:Hrun.
  pose proof (write_chunks_frame _ _ _ _ _ _ _ _ _ Hrun) as (Hsent & Hframe & Hseen).
  simpl in Hsent, Hframe, Hseen.
  assert (Hbase : ∀ k, k ≠ tmp → open_wb tmp (disk w) !! k = disk w !! k).
  { intros k Hk. unfold open_wb. by rewrite lookup_insert_ne. }
  assert (Hold : ∀ st, st ∈ seen w2 →
            st ∈ seen w ∨ ((∀ k, k ≠ tmp → st !! k = disk w !! k))).
  { intros st Hst. destruct (Hseen st Hst) as [[->|?]%elem_of_cons|Hfr]; auto.
    right. intros k Hk. rewrite Hfr by done. auto. }
  assert (Hview : ∀ st, (∀ k, k ≠ tmp → st !! k = disk w !! k) →
            atomic_view plan tmp fin r (disk w) st).
  { intros st Hfr. split; [auto|]. left. apply Hfr. congruence. }
  destruct res1 as [u|e].
  - apply write_chunks_Ok with (c := []) in Hrun as (Hbr & -> & Htmp & Hidx);
      [|apply lookup_insert_eq].
    simpl in Htmp.
    destruct (replace_raises plan) eqn:Hrep.
    + intros [= <- <- <-]. split; [done|]. split; [|split].
      * intros st Hst. destruct (Hold st Hst); auto.
      * intros k Hk _. rewrite Hframe; auto.
      * rewrite Hframe, Hbase; congruence.
    + intros [= <- <- <-]. simpl.
      assert (Hfin : atomic_view plan tmp fin r (disk w) (replace_ tmp fin (disk w2))).
      { split.
        - intros k Hk1 Hk2. rewrite replace_lookup_other by done. rewrite Hframe; auto.
        - right. split; [by apply replace_lookup_dst|].
          split; [by eapply replace_lookup_src|]. split; [done|].
          unfold write_or_rename_fails. rewrite Hopen, Hrep.
          destruct (write_raises plan) as [[j n]|] eqn:Hplan; [|done].
          rewrite bool_decide_eq_false_2; [done|].
          intros Hj. apply (Hidx j n eq_refl). lia. }
      split; [done|]. split; [|split; [|split; [|split; [|split; [|split]]]]].
      * intros st [->|Hst]%elem_of_cons; [by right|]. destruct (Hold st Hst); auto.
      * apply Hfin.
      * by apply replace_lookup_dst.
      * by eapply replace_lookup_src.
      * done.
      * destruct Hfin as [_ [Hl|(_ & _ & _ & ?)]]; [|done].
        unfold write_or_rename_fails. rewrite Hopen, Hrep.
        destruct (write_raises plan) as [[j n]|] eqn:Hplan; [|done].
        rewrite bool_decide_eq_false_2; [done|].
        intros Hj. apply (Hidx j n eq_refl). lia.
      * done.
  - intros [= <- <- <-]. split; [done|]. split; [|split].
    + intros st Hst. destruct (Hold st Hst); auto.
    + intros k Hk _. rewrite Hframe; auto.
    + rewrite Hframe, Hbase; congruence.
Qed.

Lemma remove_partial_spec plan tmp w :
  sent (remove_partial plan tmp w) = sent w ∧
  (∀ k, k ≠ tmp → disk (remove_partial plan tmp w) !! k = disk w !! k) ∧
  (remove_raises plan = false → disk (remove_partial plan tmp w) !! tmp = None) ∧
  (∀ st, st ∈ seen (remove_partial plan tmp w) →
         st ∈ seen w ∨ st = disk (remove_partial plan tmp w)).
Proof.
  unfold remove_partial, exists_. destruct (disk w !! tmp) eqn:Htmp.
  - destruct (remove_raises plan); simpl.
    + split; [done|]. split; [done|]. split; [done|]. auto.
    + split; [done|]. split; [|split].
      * intros k Hk. by apply lookup_delete_ne.
      * intros _. apply lookup_delete_eq.
      * intros st [->|?]%elem_of_cons; auto.
  - split; [done|]. split; [done|]. split; [done|]. auto.
Qed.

Lemma atomic_view_refl (plan : faults) (tmp fin : path) (r : uresponse)
    (base : gmap path node) :
  atomic_view plan tmp fin r base base.
Proof. split; auto. Qed.

(** The [try] and its [except] together: what the cache tree goes through
    and where it ends. *)
Lemma populate_spec plan tmp fin r w res s w' :
  tmp ≠ fin →
  save_archive plan tmp fin r w = (res, s, w') →
  let w'' := match res with Ok _ => w' | Raise _ => remove_partial plan tmp w' end in
  sent w'' = sent w ∧
  (∀ st, st ∈ seen w'' → st ∈ seen w ∨ atomic_view plan tmp fin r (disk w) st) ∧
  (∀ k, k ≠ tmp → k ≠ fin → disk w'' !! k = disk w !! k) ∧
  match res with
  | Ok _ => disk w'' !! fin = Some (File (concat (body_chunks r))) ∧
            disk w'' !! tmp = None ∧
            broken r = false ∧ write_or_rename_fails plan r = false
  | Raise _ => disk w'' !! fin = disk w !! fin ∧
               (remove_raises plan = false → disk w'' !! tmp = None)
  end.
Proof.
  intros Hne Hrun. apply save_archive_spec in Hrun as (Hsent & Hseen & Hframe & Hres); [|done].
  destruct res as [u|e]; simpl.
  - destruct Hres as (? & ? & ? & ? & _). done.
  - destruct (remove_partial_spec plan tmp w') as (Hs & Hf & Hrm & Hseen').
    split; [congruence|]. split; [|split; [|split]].
    + intros st Hst. destruct (Hseen' st Hst) as [?| ->]; [auto|]. right. split.
      * intros k Hk1 Hk2. rewrite Hf by done. auto.
      * left. rewrite Hf by done. done.
    + intros k Hk1 Hk2. rewrite Hf by done. auto.
    + rewrite Hf by done. done.
    + done.
Qed.

Lemma endswith_archive_name (name version : string) :
  endswith (name +:+ "-" +:+ version +:+ ".tar.gz") ".tar.gz" = true.
Proof.
  change (name +:+ "-" +:+ version +:+ ".tar.gz")
    with (name +:+ ("-" +:+ (version +:+ ".tar.gz"))).
  unfold endswith. apply bool_decide_eq_true. rewrite !chars_app.
  rewrite !app_assoc. by apply suffix_app_r.
Qed.

Section Views.

Variables (C : path) (name version : string).

Let vd := version_dir C name version.
Let fin := archive_path C name version.
Let tmp := path_add fin ".part".

Lemma tmp_in_version_dir : tmp = vd ++ [(name +:+ "-" +:+ version +:+ ".tar.gz") +:+ ".part"].
Proof. unfold tmp, fin, archive_path. by rewrite path_add_snoc. Qed.

Lemma tmp_ne_fin : tmp ≠ fin.
Proof.
  rewrite tmp_in_version_dir. unfold fin, archive_path. fold vd.
  intros Heq. apply app_inv_head in Heq. injection Heq as Heq. by apply part_ne in Heq.
Qed.

Lemma below_version_dir f : (length vd < length (vd ++ [f]))%nat.
Proof. rewrite length_app. simpl. lia. Qed.

(** On a miss in a well-formed tree the final file does not exist. *)
Lemma miss_final_absent (d : gmap path node) :
  tree_ok d → cached_tar_path C name version d = None → d !! fin = None.
Proof.
  intros Hok Hmiss. destruct (d !! fin) as [n|] eqn:Hf; [|done].
  assert (endswith (name +:+ "-" +:+ version +:+ ".tar.gz") ".tar.gz" = false) as He.
  { eapply cached_tar_path_None_elim; [exact Hok|exact Hmiss|].
    unfold fin, archive_path in Hf. rewrite Hf. by eexists. }
  by rewrite endswith_archive_name in He.
Qed.

(** A tree that differs from a tree without a cached entry only at the
    temporary file has no cached entry either. *)
Lemma untouched_lookup_None (d st : gmap path node) :
  tree_ok d →
  cached_tar_path C name version d = None →
  (∀ k, k ≠ tmp → st !! k = makedirs vd d !! k) →
  cached_tar_path C name version st = None.
Proof.
  intros Hok Hnone Hfr. apply cached_tar_path_None_intro. intros f Hf. fold vd in Hf.
  destruct (decide (vd ++ [f] = tmp)) as [Heq|Hk].
  - rewrite tmp_in_version_dir in Heq. apply app_inv_head in Heq.
    injection Heq as ->. apply endswith_part.
  - rewrite Hfr in Hf by done.
    rewrite makedirs_lookup_below in Hf by apply below_version_dir.
    by eapply cached_tar_path_None_elim.
Qed.

(** What a lookup finds in a state of a population that started from a
    miss: nothing, or the final file with the whole body. *)
Lemma atomic_view_lookup (plan : faults) (r : uresponse) (d st : gmap path node)
    (q : path) :
  tree_ok d →
  cached_tar_path C name version d = None →
  atomic_view plan tmp fin r (makedirs vd d) st →
  cached_tar_path C name version st = Some q →
  q = fin ∧ st !! q = Some (File (concat (body_chunks r))) ∧
  broken r = false ∧ write_or_rename_fails plan r = false.
Proof.
  intros Hok Hnone [Hfr Hfin] Hq.
  destruct Hfin as [Hsame|(Hfull & Htmp & Hbr & Hpl)].
  - rewrite (untouched_lookup_None d st) in Hq; [done..|].
    intros k Hk. destruct (decide (k = fin)) as [->|?]; auto.
  - apply cached_tar_path_Some in Hq as (f & -> & Hin & He). fold vd in Hin |- *.
    destruct (decide (vd ++ [f] = fin)) as [Heq|Hk]; [by rewrite Heq|].
    destruct (decide (vd ++ [f] = tmp)) as [Heq|Hk'].
    { rewrite Heq, Htmp in Hin. by destruct Hin. }
    rewrite Hfr in Hin by done.
    rewrite makedirs_lookup_below in Hin by apply below_version_dir.
    eapply cached_tar_path_None_elim in Hin; [|done..]. congruence.
Qed.

(** What a lookup finds in a state of any population: a file that was
    there before, as it was, or the final file with the whole body. *)
Lemma atomic_view_finds (plan : faults) (r : uresponse) (d st : gmap path node)
    (q : path) :
  atomic_view plan tmp fin r (makedirs vd d) st →
  cached_tar_path C name version st = Some q →
  st !! q = d !! q ∨
  q = fin ∧ st !! q = Some (File (concat (body_chunks r))) ∧
  broken r = false ∧ write_or_rename_fails plan r = false.
Proof.
  intros [Hfr Hfin] Hq.
  apply cached_tar_path_Some in Hq as (f & -> & Hin & He). fold vd in Hin |- *.
  destruct (decide (vd ++ [f] = fin)) as [Heq|Hk].
  - rewrite Heq. destruct Hfin as [Hsame|(? & ? & ? & ?)]; [left|by right].
    rewrite Hsame. apply makedirs_lookup_below, below_version_dir.
  - destruct (decide (vd ++ [f] = tmp)) as [Heq|Hk'].
    { rewrite tmp_in_version_dir in Heq. apply app_inv_head in Heq.
      injection Heq as ->. by rewrite endswith_part in He. }
    left. rewrite Hfr by done. apply makedirs_lookup_below, below_version_dir.
Qed.

End Views.

(** ** The metadata rewriter *)

Lemma rewrite_version_entry url_for name v :
  version_entry v →
  ∃ v', rewrite_version url_for name v = Ok v' ∧ rewritten url_for name v v'.
Proof.
  intros (fields & ver & link & -> & Hver & Ht & _). simpl. rewrite Hver, Ht.
  eexists. split; [done|].
  exists fields, (dict_set "archive_url" (JStr (url_for name ver)) fields), ver.
  repeat split; try done.
  - apply dict_get_set_eq.
  - apply dict_without_set.
Qed.

Lemma rewrite_versions_entries url_for name vs :
  Forall version_entry vs →
  ∃ vs', rewrite_versions url_for name vs = Ok vs' ∧
         Forall2 (rewritten url_for name) vs vs'.
Proof.
  induction 1 as [|v vs Hv _ (vs' & Hvs' & IH)]; simpl.
  - by exists [].
  - destruct (rewrite_version_entry url_for name v Hv) as (v' & -> & Hr).
    rewrite Hvs'. simpl. exists (v' :: vs'). split; [done|]. by constructor.
Qed.

(** The fields of an object without the archive links. *)
Lemma strip_links_fields (fields : list (string * json)) :
  ∃ fields', strip_links (JObj fields) = JObj fields' ∧
    match fields with
    | [] => fields' = []
    | (k, x) :: rest =>
        ∃ rest', strip_links (JObj rest) = JObj rest' ∧
          fields' = if decide (k = "archive_url") then rest'
                    else (k, strip_links x) :: rest'
    end.
Proof.
  eexists. split; [reflexivity|]. destruct fields as [|[k x] rest]; [done|].
  eexists. split; [reflexivity|]. simpl. by destruct (decide (k = "archive_url")).
Qed.

Lemma strip_links_cons (k : string) (x : json) (rest rest' : list (string * json)) :
  strip_links (JObj rest) = JObj rest' →
  strip_links (JObj ((k, x) :: rest))
    = JObj (if decide (k = "archive_url") then rest' else (k, strip_links x) :: rest').
Proof.
  intros Hrest.
  destruct (strip_links_fields ((k, x) :: rest)) as (f' & -> & r' & Hr' & ->).
  rewrite Hrest in Hr'. by injection Hr' as <-.
Qed.

Lemma strip_links_set_link (u : json) (fields : list (string * json)) :
  strip_links (JObj (dict_set "archive_url" u fields)) = strip_links (JObj fields).
Proof.
  induction fields as [|[k x] rest IH]; [done|].
  destruct (strip_links_fields rest) as (rest' & Hrest & _).
  rewrite (strip_links_cons k x rest rest' Hrest). cbn [dict_set].
  destruct (decide (k = "archive_url")) as [->|Hk].
  - by rewrite (strip_links_cons "archive_url" u rest rest' Hrest).
  - rewrite Hrest in IH.
    rewrite (strip_links_cons k x _ rest' IH). by rewrite decide_False by done.
Qed.

Lemma strip_links_set_versions (vs vs' : list json) (fields : list (string * json)) :
  dict_get "versions" fields = Some (JArr vs) →
  map strip_links vs' = map strip_links vs →
  strip_links (JObj (dict_set "versions" (JArr vs') fields)) = strip_links (JObj fields).
Proof.
  intros Hget Hmap. induction fields as [|[k x] rest IH]; [done|].
  destruct (strip_links_fields rest) as (rest' & Hrest & _).
  rewrite (strip_links_cons k x rest rest' Hrest). cbn [dict_set dict_get] in *.
  destruct (decide (k = "versions")) as [->|Hk].
  - injection Hget as ->.
    rewrite (strip_links_cons "versions" (JArr vs') rest rest' Hrest).
    rewrite !decide_False by done. cbn [strip_links]. by rewrite Hmap.
  - specialize (IH Hget). rewrite Hrest in IH.
    by rewrite (strip_links_cons k x _ rest' IH).
Qed.

Lemma rewrite_version_strip url_for name v v' :
  rewrite_version url_for name v = Ok v' → strip_links v' = strip_links v.
Proof.
  destruct v as [| | | | |fields]; try done. unfold rewrite_version.
  destruct (dict_get "version" fields) as [ver|]; [|by intros [= <-]].
  destruct (truthy ver); intros [= <-]; [|done]. apply strip_links_set_link.
Qed.

Lemma rewrite_versions_strip url_for name vs vs' :
  rewrite_versions url_for name vs = Ok vs' →
  map strip_links vs' = map strip_links vs.
Proof.
  revert vs'. induction vs as [|v vs IH]; intros vs'; simpl.
  - by intros [= <-].
  - destruct (rewrite_version url_for name v) as [v1|] eqn:Hv; [|done]. simpl.
    destruct (rewrite_versions url_for name vs) as [vs1|]; [|done]. simpl.
    intros [= <-]. simpl. by rewrite (rewrite_version_strip _ _ _ _ Hv), (IH vs1).
Qed.

(** What the rewriter returns differs from the document it was given in
    archive links only. *)
Lemma rewrite_archive_urls_strip url_for name data data' :
  rewrite_archive_urls url_for name data = Ok data' →
  strip_links data' = strip_links data.
Proof.
  destruct data as [| | | | |fields]; try done. unfold rewrite_archive_urls.
  destruct (dict_get "versions" fields) as [vers|] eqn:Hget; [|by intros [= <-]].
  destruct vers as [| | |t|vs|[|? ?]]; try done; try by intros [= <-].
  - by destruct (String.eqb t EmptyString); [intros [= <-]|].
  - destruct (rewrite_versions url_for name vs) as [vs'|] eqn:Hvs; [|done]. simpl.
    intros [= <-]. eapply strip_links_set_versions; [done|].
    by eapply rewrite_versions_strip.
Qed.

Section Metadata.

Variable REAL_PUB : string.
Variable url_for : string → json → string.
Variable net : urequest → option uresponse.

(** C4, as the code has it.  Package metadata: when the [versions] list of
    the upstream document has N version entries, the [versions] list of the
    returned document has N entries in the same order, the archive link of
    each is the proxy's archive URL for that entry's version, every other
    field of each entry is as it was, and so is every top-level field other
    than the list; the two documents are equal once the archive links are
    taken out of both, at any depth. *)
Theorem api_package_rewrites_every_archive_link name w r fields vs :
  net (get_request REAL_PUB ("/api/packages/" +:+ name) false) = Some r →
  broken r = false →
  status_code r = 200 →
  json_ r = Some (JObj fields) →
  dict_get "versions" fields = Some (JArr vs) →
  Forall version_entry vs →
  ∃ fields' vs',
    (api_package REAL_PUB url_for net name w).1 = Jsonify (JObj fields') 200 ∧
    dict_get "versions" fields' = Some (JArr vs') ∧
    length vs' = length vs ∧
    Forall2 (rewritten url_for name) vs vs' ∧
    dict_without "versions" fields' = dict_without "versions" fields ∧
    strip_links (JObj fields') = strip_links (JObj fields).
Proof.
  intros Hnet Hbr Hst Hjs Hvs Hall.
  destruct (rewrite_versions_entries url_for name vs Hall) as (vs' & Hrw & Hrel).
  exists (dict_set "versions" (JArr vs') fields), vs'.
  unfold api_package, fetch_upstream, requests_request.
  fold (get_request REAL_PUB ("/api/packages/" +:+ name) false).
  rewrite Hnet. simpl. rewrite Hbr, Hst. simpl. rewrite Hjs. simpl.
  rewrite Hvs, Hrw. simpl.
  split; [done|]. split; [apply dict_get_set_eq|].
  split; [symmetry; by eapply Forall2_length|]. split; [done|].
  split; [apply dict_without_set|].
  eapply strip_links_set_versions; [done|]. by eapply rewrite_versions_strip.
Qed.

(** C10. Single-version metadata: the returned document is the upstream
    object with its top-level [archive_url] set to the proxy's archive URL
    for (name, version), whether or not the upstream object had that field
    and whatever its value was; the other fields are untouched. *)
Theorem api_package_version_sets_archive_url name version w r fields :
  net (get_request REAL_PUB
         ("/api/packages/" +:+ name +:+ "/versions/" +:+ version +:+ ".json") false)
    = Some r →
  broken r = false →
  status_code r = 200 →
  json_ r = Some (JObj fields) →
  ∃ fields',
    (api_package_version REAL_PUB url_for net name version w).1
      = Jsonify (JObj fields') 200 ∧
    fields' = dict_set "archive_url" (JStr (url_for name (JStr version))) fields ∧
    dict_get "archive_url" fields' = Some (JStr (url_for name (JStr version))) ∧
    (∀ k, k ≠ "archive_url" → dict_get k fields' = dict_get k fields) ∧
    dict_without "archive_url" fields' = dict_without "archive_url" fields.
Proof.
  intros Hnet Hbr Hst Hjs. eexists. split; [|split; [reflexivity|split; [|split]]].
  - unfold api_package_version, fetch_upstream, requests_request.
    fold (get_request REAL_PUB
            ("/api/packages/" +:+ name +:+ "/versions/" +:+ version +:+ ".json") false).
    rewrite Hnet. simpl. rewrite Hbr, Hst. simpl. by rewrite Hjs.
  - apply dict_get_set_eq.
  - intros k Hk. by apply dict_get_set_ne.
  - apply dict_without_set.
Qed.

End Metadata.

Section Handlers.

Variable REAL_PUB : string.
Variable CACHE_DIR : path.
Variable net : urequest → option uresponse.
Variable str : exn → string.

(** The archive endpoint on a miss, and the prefetch endpoint, once the
    upstream has answered 200. *)
Lemma package_archive_miss_200 plan name version w r :
  cached_tar_path CACHE_DIR name version (disk w) = None →
  net (get_request REAL_PUB (archive_upstream_path name version) true) = Some r →
  status_code r = 200 →
  package_archive REAL_PUB CACHE_DIR net plan name version w =
    let w1 := note (get_request REAL_PUB (archive_upstream_path name version) true) w in
    if makedirs_raises plan then (Unhandled OSError, w1)
    else
      let fin := archive_path CACHE_DIR name version in
      let tmp := path_add fin ".part" in
      match save_archive plan tmp fin r
              (put (makedirs (version_dir CACHE_DIR name version) (disk w)) w1) with
      | (Ok _, _, w3) => (send_file fin true w3, w3)
      | (Raise _, s, w3) =>
          (match iter_content s with
           | Ok chunks =>
               Response (Streamed chunks (broken r)) 200 []
                 (Some (headers_get "content-type" "application/octet-stream" (headers r)))
           | Raise e => Unhandled e
           end, remove_partial plan tmp w3)
      end.
Proof.
  intros Hmiss Hnet Hst. unfold package_archive. rewrite Hmiss.
  unfold fetch_upstream, requests_request.
  fold (archive_upstream_path name version).
  fold (get_request REAL_PUB (archive_upstream_path name version) true).
  rewrite Hnet. cbn [q_stream get_request negb andb]. rewrite Hst.
  change (negb (200 =? 200)) with false. cbv iota zeta.
  destruct (makedirs_raises plan); [done|].
  cbn [disk note].
  destruct (save_archive _ _ _ _ _) as [[[u|e] s] w3]; [done|].
  by destruct (iter_content s).
Qed.

Lemma admin_prefetch_200 plan name version w r :
  net (get_request REAL_PUB (archive_upstream_path name version) true) = Some r →
  status_code r = 200 →
  admin_prefetch REAL_PUB CACHE_DIR net str plan name version w =
    let w1 := note (get_request REAL_PUB (archive_upstream_path name version) true) w in
    if makedirs_raises plan then (Unhandled OSError, w1)
    else
      let fin := archive_path CACHE_DIR name version in
      let tmp := path_add fin ".part" in
      match save_archive plan tmp fin r
              (put (makedirs (version_dir CACHE_DIR name version) (disk w)) w1) with
      | (Ok _, _, w3) =>
          (Jsonify (JObj [("status", JStr "cached"); ("package", JStr name);
                          ("version", JStr version);
                          ("path", JStr (path_str fin))]) 200, w3)
      | (Raise e, _, w3) =>
          (Jsonify (JObj [("status", JStr "error"); ("error", JStr (str e))]) 500,
           remove_partial plan tmp w3)
      end.
Proof.
  intros Hnet Hst. unfold admin_prefetch.
  unfold fetch_upstream, requests_request.
  fold (archive_upstream_path name version).
  fold (get_request REAL_PUB (archive_upstream_path name version) true).
  rewrite Hnet. cbn [q_stream get_request negb andb]. rewrite Hst.
  change (negb (200 =? 200)) with false. cbv iota zeta.
  destruct (makedirs_raises plan); [done|].
  cbn [disk note].
  by destruct (save_archive _ _ _ _ _) as [[[u|e] s] w3].
Qed.

(** Either endpoint, after a 200: the states the tree goes through, and
    where the tree ends, for a world [w'] that is the one after the
    [try]/[except]. *)
Lemma population_states plan name version w r res s w3 :
  let q := get_request REAL_PUB (archive_upstream_path name version) true in
  let vd := version_dir CACHE_DIR name version in
  let fin := archive_path CACHE_DIR name version in
  let tmp := path_add fin ".part" in
  save_archive plan tmp fin r (put (makedirs vd (disk w)) (note q w)) = (res, s, w3) →
  let w' := match res with Ok _ => w3 | Raise _ => remove_partial plan tmp w3 end in
  sent w' = sent w ++ [q] ∧
  (∀ st, st ∈ seen w' → st ∈ seen w ∨ atomic_view plan tmp fin r (makedirs vd (disk w)) st) ∧
  atomic_view plan tmp fin r (makedirs vd (disk w)) (disk w') ∧
  match res with
  | Ok _ => disk w' !! fin = Some (File (concat (body_chunks r))) ∧
            disk w' !! tmp = None ∧
            broken r = false ∧ write_or_rename_fails plan r = false
  | Raise _ => disk w' !! fin = disk w !! fin ∧
               (remove_raises plan = false → disk w' !! tmp = None)
  end.
Proof.
  intros q vd fin tmp Hrun w'.
  pose proof (tmp_ne_fin CACHE_DIR name version) as Hne.
  apply populate_spec in Hrun as (Hsent & Hseen & Hframe & Hres); [|done].
  fold w' in Hsent, Hseen, Hframe, Hres. simpl in Hsent, Hseen, Hframe.
  assert (Hfin : makedirs vd (disk w) !! fin = disk w !! fin).
  { apply makedirs_lookup_below, below_version_dir. }
  split; [done|]. split; [|split].
  - intros st Hst. destruct (Hseen st Hst) as [[->|?]%elem_of_cons|?]; auto.
    right. apply atomic_view_refl.
  - split; [done|]. destruct res; simpl in Hres.
    + right. tauto.
    + left. destruct Hres as [-> _]. done.
  - destruct res; simpl in Hres |- *; [done|]. by rewrite <- Hfin.
Qed.

Lemma population_fails plan name version w r res s w3 :
  save_archive plan (path_add (archive_path CACHE_DIR name version) ".part")
    (archive_path CACHE_DIR name version) r
    (put (makedirs (version_dir CACHE_DIR name version) (disk w))
       (note (get_request REAL_PUB (archive_upstream_path name version) true) w))
    = (res, s, w3) →
  write_or_rename_fails plan r || broken r = true →
  ∃ e, res = Raise e.
Proof.
  intros Hrun Hbad. destruct res as [u|e]; [|by eexists].
  apply population_states in Hrun as (_ & _ & _ & _ & _ & Hbr & Hpl).
  rewrite Hbr, Hpl in Hbad. done.
Qed.

(** The two endpoints that populate the cache leave the same world: the
    one after the upstream call when [os.makedirs] raises, the one after
    the [try] and its [except] otherwise. *)
Lemma population_world plan name version w r w' :
  let q := get_request REAL_PUB (archive_upstream_path name version) true in
  let fin := archive_path CACHE_DIR name version in
  let tmp := path_add fin ".part" in
  net q = Some r →
  status_code r = 200 →
  w' = (admin_prefetch REAL_PUB CACHE_DIR net str plan name version w).2 ∨
  cached_tar_path CACHE_DIR name version (disk w) = None ∧
  w' = (package_archive REAL_PUB CACHE_DIR net plan name version w).2 →
  makedirs_raises plan = true ∧ w' = note q w ∨
  makedirs_raises plan = false ∧
  ∃ res s w3,
    save_archive plan tmp fin r
      (put (makedirs (version_dir CACHE_DIR name version) (disk w)) (note q w))
      = (res, s, w3) ∧
    w' = match res with Ok _ => w3 | Raise _ => remove_partial plan tmp w3 end.
Proof.
  intros q fin tmp Hnet Hst Hw'.
  assert (Hw : w' = (if makedirs_raises plan then (Unhandled OSError, note q w)
                     else
                       match save_archive plan tmp fin r
                               (put (makedirs (version_dir CACHE_DIR name version) (disk w))
                                  (note q w)) with
                       | (Ok _, _, w3) => (Unhandled OSError, w3)
                       | (Raise _, _, w3) => (Unhandled OSError, remove_partial plan tmp w3)
                       end).2).
  { destruct Hw' as [->|[Hmiss ->]].
    - rewrite (admin_prefetch_200 plan name version w r) by done. cbv zeta.
      destruct (makedirs_raises plan); [done|].
      by destruct (save_archive _ _ _ _ _) as [[[u|e] s] w3].
    - rewrite (package_archive_miss_200 plan name version w r) by done. cbv zeta.
      destruct (makedirs_raises plan); [done|].
      by destruct (save_archive _ _ _ _ _) as [[[u|e] s] w3]. }
  clear Hw'. destruct (makedirs_raises plan); [by left|right]. split; [done|].
  destruct (save_archive _ _ _ _ _) as [[res s] w3]. exists res, s, w3.
  split; [done|]. by destruct res.
Qed.

(** C1, as the code has it, for one population taken on its own (the states
    are those this request puts the tree in; no other population of the key
    runs meanwhile) and a name and a version that are plain path
    components.  Populating the cache (prefetch, and the archive endpoint on
    a miss), once the upstream has answered 200.
    - The temporary file lies in the version's directory and its name does
      not end in [.tar.gz].
    - In every state the tree goes through, the final file is as it was
      before the request or holds the whole body, and it holds the whole body
      only if the stream ended without failing and no write or rename failed;
      away from the two files the tree is the one [os.makedirs] left.
    - What a lookup finds in any of these states is a file that was there
      before the request, as it was, or the final file with the whole body.
    - If a write or the rename fails, or the stream does, the final file
      ends as it was, and the temporary file is gone unless removing it
      failed as well.
    - When the request started from a miss in a well-formed tree, a lookup in
      any of these states finds nothing or the final file with the whole
      body, and after a failure it finds nothing. *)
Theorem population_is_atomic plan name version w r w' :
  let vd := version_dir CACHE_DIR name version in
  let fin := archive_path CACHE_DIR name version in
  let tmp := path_add fin ".part" in
  let whole := File (concat (body_chunks r)) in
  plain name = true →
  plain version = true →
  net (get_request REAL_PUB (archive_upstream_path name version) true) = Some r →
  status_code r = 200 →
  w' = (admin_prefetch REAL_PUB CACHE_DIR net str plan name version w).2 ∨
  cached_tar_path CACHE_DIR name version (disk w) = None ∧
  w' = (package_archive REAL_PUB CACHE_DIR net plan name version w).2 →
  (∃ f, tmp = vd ++ [f] ∧ endswith f ".tar.gz" = false) ∧
  (∀ st, st ∈ seen w' →
     st ∈ seen w ∨ atomic_view plan tmp fin r (makedirs vd (disk w)) st) ∧
  (∀ st q, st ∈ seen w' → st ∉ seen w →
     cached_tar_path CACHE_DIR name version st = Some q →
     st !! q = disk w !! q ∨
     q = fin ∧ st !! q = Some whole ∧
     broken r = false ∧ write_or_rename_fails plan r = false) ∧
  (write_or_rename_fails plan r || broken r = true →
     disk w' !! fin = disk w !! fin ∧
     (makedirs_raises plan = false → remove_raises plan = false →
      disk w' !! tmp = None)) ∧
  (tree_ok (disk w) →
   cached_tar_path CACHE_DIR name version (disk w) = None →
   (∀ st q, st ∈ seen w' → st ∉ seen w →
      cached_tar_path CACHE_DIR name version st = Some q →
      q = fin ∧ st !! q = Some whole ∧
      broken r = false ∧ write_or_rename_fails plan r = false) ∧
   (write_or_rename_fails plan r || broken r = true →
      cached_tar_path CACHE_DIR name version (disk w') = None)).
Proof.
  intros vd fin tmp whole _ _ Hnet Hst Hw'. subst whole tmp fin vd.
  apply (population_world plan name version w r w' Hnet Hst) in Hw'.
  split; [eexists; split; [apply tmp_in_version_dir|apply endswith_part]|].
  destruct Hw' as [[Hmk ->]|(Hmk & res & s & w3 & Hrun & ->)].
  { simpl. split; [auto|]. split; [by intros st q Hin Hnin|].
    split; [intros _; split; [done|by rewrite Hmk]|].
    intros Hok Hmiss. split; [by intros st q Hin Hnin|done]. }
  pose proof (population_states _ _ _ _ _ _ _ _ Hrun) as (_ & Hseen & Hlast & Hres).
  pose proof (tmp_in_version_dir CACHE_DIR name version) as Htmpdir.
  set (fin := archive_path CACHE_DIR name version) in *.
  set (tmp := path_add fin ".part") in *.
  set (vd := version_dir CACHE_DIR name version) in *.
  set (w'' := match res with Ok _ => w3 | Raise _ => remove_partial plan tmp w3 end) in *.
  split; [exact Hseen|]. split; [|split].
  - intros st q Hin Hnin Hq. destruct (Hseen st Hin) as [?|Hview]; [done|].
    by eapply atomic_view_finds.
  - intros Hbad. destruct (population_fails _ _ _ _ _ _ _ _ Hrun Hbad) as [e ->].
    destruct Hres as [Hfin Htmp]. split; [exact Hfin|]. intros _. exact Htmp.
  - intros Hok Hmiss. split.
    + intros st q Hin Hnin Hq. destruct (Hseen st Hin) as [?|Hview]; [done|].
      by eapply atomic_view_lookup.
    + intros Hbad. destruct (population_fails _ _ _ _ _ _ _ _ Hrun Hbad) as [e ->].
      destruct Hres as [Hfin _]. destruct Hlast as [Hfr _].
      pose proof (miss_final_absent _ _ _ _ Hok Hmiss) as Hno. fold fin in Hno.
      apply cached_tar_path_None_intro. intros f Hf. fold vd in Hf.
      destruct (decide (vd ++ [f] = tmp)) as [Heq|Hk].
      * rewrite Htmpdir in Heq. apply app_inv_head in Heq.
        injection Heq as ->. apply endswith_part.
      * destruct (decide (vd ++ [f] = fin)) as [Heq|Hk'].
        -- rewrite Heq, Hfin, Hno in Hf. by destruct Hf.
        -- eapply cached_tar_path_None_elim; [exact Hok|exact Hmiss|].
           rewrite Hfr in Hf by done.
           by rewrite makedirs_lookup_below in Hf by apply below_version_dir.
Qed.

(** C7. When the upstream cannot be reached, each of the five endpoints
    that call it answers 502 and leaves the cache tree as it was (the
    archive endpoint calls the upstream only on a miss). *)
Theorem transport_failure_is_bad_gateway (url_for : string → json → string)
    plan name version path_ req w :
  (∀ q, net q = None) →
  ((api_package REAL_PUB url_for net name w).1 = Abort 502 ∧
   disk (api_package REAL_PUB url_for net name w).2 = disk w) ∧
  ((api_package_version REAL_PUB url_for net name version w).1 = Abort 502 ∧
   disk (api_package_version REAL_PUB url_for net name version w).2 = disk w) ∧
  (cached_tar_path CACHE_DIR name version (disk w) = None →
   (package_archive REAL_PUB CACHE_DIR net plan name version w).1 = Abort 502 ∧
   disk (package_archive REAL_PUB CACHE_DIR net plan name version w).2 = disk w) ∧
  ((admin_prefetch REAL_PUB CACHE_DIR net str plan name version w).1 = Abort 502 ∧
   disk (admin_prefetch REAL_PUB CACHE_DIR net str plan name version w).2 = disk w) ∧
  ((proxy_fallback REAL_PUB net path_ req w).1 = Abort 502 ∧
   disk (proxy_fallback REAL_PUB net path_ req w).2 = disk w).
Proof.
  intros Hdown.
  unfold api_package, api_package_version, package_archive, admin_prefetch,
    proxy_fallback, fetch_upstream, requests_request.
  split; [|split; [|split; [|split]]]; try intros ->; rewrite !Hdown; done.
Qed.

(** X17. For a GET or a HEAD whose query keys are distinct, the fallback route
    sends the upstream one call with the inbound method, query and body and
    the inbound headers without [Host]; its reply has the upstream's status
    and the body [iter_content] yields, and its headers are the upstream's
    raw headers, in order, without [content-encoding], [transfer-encoding]
    and [connection].  (Header names of an inbound request are distinct:
    they come from the keys of the WSGI environment.) *)
Theorem fallback_route_replays allow path_ req w :
  method req ∈ ["GET"; "HEAD"] →
  NoDup (req_headers req).*1 →
  NoDup (args req).*1 →
  sent (fallback_route REAL_PUB net allow path_ req w).2
    = sent w ++ [replayed REAL_PUB path_ req] ∧
  disk (fallback_route REAL_PUB net allow path_ req w).2 = disk w ∧
  ∀ resp, net (replayed REAL_PUB path_ req) = Some resp →
    ∃ hs,
      (fallback_route REAL_PUB net allow path_ req w).1
        = Response (Streamed (body_chunks resp) (broken resp)) (status_code resp) hs None ∧
      sublist hs (raw_headers resp) ∧
      ∀ kv, kv ∈ hs ↔ kv ∈ raw_headers resp ∧ lower kv.1 ∉ hop_by_hop.
Proof.
  intros Hm Hnd Hargs.
  assert (Hq : dict_of (filter (λ kv, lower kv.1 ≠ "host") (req_headers req))
               = filter (λ kv, lower kv.1 ≠ "host") (req_headers req)).
  { apply dict_of_NoDup. eapply sublist_NoDup; [exact Hnd|].
    apply fmap_sublist, sublist_filter. }
  unfold fallback_route. rewrite decide_True by done.
  unfold proxy_fallback. rewrite Hq, (multidict_items_NoDup _ Hargs).
  fold (replayed REAL_PUB path_ req).
  unfold requests_request.
  destruct (net (replayed REAL_PUB path_ req)) as [resp|] eqn:Hnet; simpl.
  - split; [done|]. split; [done|]. intros ? [= <-]. eexists. split; [reflexivity|].
    split; [apply sublist_filter|]. intros kv. rewrite list_elem_of_filter. tauto.
  - split; [done|]. split; done.
Qed.

(** C6. Prefetch never consults the cache.  Whatever the tree holds for
    (name, version), cached or not, it makes exactly one call to the
    upstream, for the archive; and when the upstream answers 200, the stream
    does not fail and no disk call fails, the final file holds the downloaded
    body in place of what it held, and the result is [cached] with the final
    path. *)
Theorem prefetch_downloads_and_overwrites plan name version w :
  sent (admin_prefetch REAL_PUB CACHE_DIR net str plan name version w).2
    = sent w ++ [get_request REAL_PUB (archive_upstream_path name version) true] ∧
  ∀ r,
    net (get_request REAL_PUB (archive_upstream_path name version) true) = Some r →
    status_code r = 200 →
    broken r = false →
    makedirs_raises plan = false →
    write_or_rename_fails plan r = false →
    ∃ w',
      admin_prefetch REAL_PUB CACHE_DIR net str plan name version w
        = (Jsonify (JObj [("status", JStr "cached"); ("package", JStr name);
                          ("version", JStr version);
                          ("path", JStr (path_str (archive_path CACHE_DIR name version)))])
             200, w') ∧
      disk w' !! archive_path CACHE_DIR name version
        = Some (File (concat (body_chunks r))).
Proof.
  split.
  - destruct (net (get_request REAL_PUB (archive_upstream_path name version) true))
      as [r|] eqn:Hnet.
    + destruct (decide (status_code r = 200)) as [Hst|Hst].
      * rewrite (admin_prefetch_200 plan name version w r) by done. cbv zeta.
        destruct (makedirs_raises plan); [done|].
        destruct (save_archive _ _ _ _ _) as [[res s] w3] eqn:Hrun.
        apply population_states in Hrun as (Hsent & _). by destruct res.
      * unfold admin_prefetch, fetch_upstream, requests_request.
        fold (archive_upstream_path name version).
        fold (get_request REAL_PUB (archive_upstream_path name version) true).
        rewrite Hnet. cbn [q_stream get_request negb andb].
        apply Z.eqb_neq in Hst. by rewrite Hst.
    + unfold admin_prefetch, fetch_upstream, requests_request.
      fold (archive_upstream_path name version).
      fold (get_request REAL_PUB (archive_upstream_path name version) true).
      by rewrite Hnet.
  - intros r Hnet Hst Hbr Hmk Hpl.
    rewrite (admin_prefetch_200 plan name version w r) by done. cbv zeta. rewrite Hmk.
    edestruct (save_archive_Ok plan) as (s & w3 & Hrun); [exact Hpl|exact Hbr|].
    rewrite Hrun. exists w3.
    apply population_states in Hrun as (_ & _ & _ & Hfin & _). done.
Qed.

(** C3, as the code has it.  On a miss: under a status other than 200 the
    reply has the upstream's status and, as body, [r.content] (the body as
    [requests] decoded it), and the cache tree is not touched; after a 200,
    when the stream does not fail and no disk call fails, the final file
    holds the body and the reply serves it as an attachment.  (Which headers
    the reply carries under a status other than 200 is not part of the
    statement.) *)
Theorem archive_miss_by_status plan name version w r :
  cached_tar_path CACHE_DIR name version (disk w) = None →
  net (get_request REAL_PUB (archive_upstream_path name version) true) = Some r →
  (status_code r ≠ 200 → broken r = false →
   (∃ hs ct,
      (package_archive REAL_PUB CACHE_DIR net plan name version w).1
        = Response (Buffered (concat (body_chunks r))) (status_code r) hs ct) ∧
   (package_archive REAL_PUB CACHE_DIR net plan name version w).2
     = note (get_request REAL_PUB (archive_upstream_path name version) true) w) ∧
  (status_code r = 200 → broken r = false →
   makedirs_raises plan = false → write_or_rename_fails plan r = false →
   ∃ w',
     package_archive REAL_PUB CACHE_DIR net plan name version w
       = (SendFile (archive_path CACHE_DIR name version) (concat (body_chunks r)) true, w') ∧
     disk w' !! archive_path CACHE_DIR name version
       = Some (File (concat (body_chunks r)))).
Proof.
  intros Hmiss Hnet. split.
  - intros Hst Hbr. unfold package_archive. rewrite Hmiss.
    unfold fetch_upstream, requests_request.
    fold (archive_upstream_path name version).
    fold (get_request REAL_PUB (archive_upstream_path name version) true).
    rewrite Hnet. cbn [q_stream get_request negb andb].
    apply Z.eqb_neq in Hst. rewrite Hst. cbn [negb].
    unfold pass_through, content. rewrite Hbr. split; [by eexists _, _|done].
  - intros Hst Hbr Hmk Hpl.
    rewrite (package_archive_miss_200 plan name version w r) by done. cbv zeta.
    rewrite Hmk.
    edestruct (save_archive_Ok plan) as (s & w3 & Hrun); [exact Hpl|exact Hbr|].
    rewrite Hrun. exists w3.
    apply population_states in Hrun as (_ & _ & _ & Hfin & _).
    unfold send_file. by rewrite Hfin.
Qed.

(** The relay after a failed write carries the chunks after the failed one
    only: the chunks up to and including it were read from the stream by the
    copy loop and are not sent. *)
Lemma relay_after_failed_write plan name version w r j n :
  cached_tar_path CACHE_DIR name version (disk w) = None →
  net (get_request REAL_PUB (archive_upstream_path name version) true) = Some r →
  status_code r = 200 →
  makedirs_raises plan = false →
  open_raises plan = false →
  write_raises plan = Some (j, n) →
  (j < writes_needed (body_chunks r))%nat →
  ∃ before chunk rest,
    body_chunks r = before ++ chunk :: rest ∧ chunk ≠ [] ∧
    (package_archive REAL_PUB CACHE_DIR net plan name version w).1
      = Response (Streamed rest (broken r)) 200 []
          (Some (headers_get "content-type" "application/octet-stream" (headers r))).
Proof.
  intros Hmiss Hnet Hst Hmk Hopen Hplan Hj.
  rewrite (package_archive_miss_200 plan name version w r) by done. cbv zeta.
  rewrite Hmk. unfold save_archive. rewrite Hopen.
  edestruct (write_chunks_fault plan) as (before & chunk & rest & w' & Hsplit & Hc & ->);
    [exact Hplan|split; [apply Nat.le_0_l|exact Hj]|].
  by exists before, chunk, rest.
Qed.

(** C9. On a miss answered 200, a reply of the archive endpoint that is a
    plain response (the relay after a failed population) has status 200, no
    headers of its own, the content type of the upstream response
    ([application/octet-stream] when it has none) and the rest of the
    stream as body; it is not a [send_file] reply, so it has no attachment
    disposition.  Such a reply is what the endpoint gives when the
    temporary file cannot be opened. *)
Theorem relay_reply_shape plan name version w r :
  cached_tar_path CACHE_DIR name version (disk w) = None →
  net (get_request REAL_PUB (archive_upstream_path name version) true) = Some r →
  status_code r = 200 →
  (∀ b status hs ct,
     (package_archive REAL_PUB CACHE_DIR net plan name version w).1
       = Response b status hs ct →
     status = 200 ∧ hs = [] ∧
     ct = Some (headers_get "content-type" "application/octet-stream" (headers r)) ∧
     ∃ chunks, b = Streamed chunks (broken r)) ∧
  (makedirs_raises plan = false → open_raises plan = true →
   (package_archive REAL_PUB CACHE_DIR net plan name version w).1
     = Response (Streamed (body_chunks r) (broken r)) 200 []
         (Some (headers_get "content-type" "application/octet-stream" (headers r)))).
Proof.
  intros Hmiss Hnet Hst.
  rewrite (package_archive_miss_200 plan name version w r) by done. cbv zeta. split.
  - intros b status hs ct. destruct (makedirs_raises plan); [done|].
    destruct (save_archive _ _ _ _ _) as [[[u|e] s] w3]; simpl.
    + unfold send_file. by destruct (disk w3 !! _) as [[|c]|].
    + destruct (iter_content s) as [chunks|e']; [|done].
      intros [= <- <- <- <-]. eauto.
  - intros -> Hopen. unfold save_archive. by rewrite Hopen.
Qed.

Lemma purge_not_found fault name version w :
  isdir (disk w) (purge_dir CACHE_DIR name version) = false →
  admin_purge CACHE_DIR fault name version w
    = (Jsonify (purge_doc "not_found" name version) 404, w).
Proof.
  assert (Hcons : ∀ v, (CACHE_DIR ++ [name]) ++ [v] = CACHE_DIR ++ [name; v]).
  { intros v. by rewrite <- app_assoc. }
  unfold admin_purge, purge_dir, purge_doc.
  destruct version as [[|c v]|]; simpl; rewrite ?Hcons; by intros ->.
Qed.

Lemma purged_again_not_found fault name version n w :
  isdir (disk w) (purge_dir CACHE_DIR name version) = false →
  purged_again CACHE_DIR fault name version n w = w.
Proof.
  intros Hdir. induction n as [|n IH]; [done|].
  unfold purged_again in *. simpl. rewrite IH. by rewrite purge_not_found.
Qed.

(** C5, as the code has it, for a name and a version that are plain path
    components.  A purge looks at the directory, not at the archive: when
    the directory of the version (of the package, when no version is given)
    does not exist, the result is [not_found] with 404 and the world is
    unchanged, on the first call and on every repetition; when it exists,
    holding an archive or not, and [shutil.rmtree] does not raise, it is
    removed with all it holds, nothing else changes, no lookup under it
    finds anything, the result is [purged], and every later purge of the
    same key gives [not_found] with 404.  (When [shutil.rmtree] raises, the
    exception leaves the view.) *)
Theorem purge_by_directory fault name version w :
  plain name = true →
  (∀ v, version = Some v → plain v = true) →
  (isdir (disk w) (purge_dir CACHE_DIR name version) = false →
   ∀ n, admin_purge CACHE_DIR fault name version
          (purged_again CACHE_DIR fault name version n w)
        = (Jsonify (purge_doc "not_found" name version) 404, w)) ∧
  (isdir (disk w) (purge_dir CACHE_DIR name version) = true →
   (fault = None →
    ∃ w',
      admin_purge CACHE_DIR fault name version w
        = (Jsonify (purge_doc "purged" name version) 200, w') ∧
      (∀ k, purge_dir CACHE_DIR name version `prefix_of` k → disk w' !! k = None) ∧
      (∀ k, ¬ purge_dir CACHE_DIR name version `prefix_of` k → disk w' !! k = disk w !! k) ∧
      (∀ v, version = None ∨ version = Some v →
            cached_tar_path CACHE_DIR name v (disk w') = None) ∧
      ∀ n, admin_purge CACHE_DIR fault name version
             (purged_again CACHE_DIR fault name version n w')
           = (Jsonify (purge_doc "not_found" name version) 404, w')) ∧
   (fault ≠ None →
    (admin_purge CACHE_DIR fault name version w).1 = Unhandled OSError)).
Proof.
  intros _ _. split.
  { intros Hdir n. rewrite purged_again_not_found by done. by apply purge_not_found. }
  assert (Hcons : ∀ v, (CACHE_DIR ++ [name]) ++ [v] = CACHE_DIR ++ [name; v]).
  { intros v. by rewrite <- app_assoc. }
  assert (Hgone : ∀ dir d v,
    dir `prefix_of` version_dir CACHE_DIR name v →
    cached_tar_path CACHE_DIR name v (rmtree dir d) = None).
  { intros dir d v Hpre. unfold cached_tar_path, isdir.
    by rewrite rmtree_lookup_under. }
  assert (Hwhole : ∀ v, CACHE_DIR ++ [name] `prefix_of` version_dir CACHE_DIR name v).
  { intros v. unfold version_dir. by exists [v]; rewrite <- app_assoc. }
  intros Hdir. split; [|].
  - intros ->.
    exists (put (rmtree (purge_dir CACHE_DIR name version) (disk w)) w).
    assert (Hafter : isdir (disk (put (rmtree (purge_dir CACHE_DIR name version) (disk w)) w))
                       (purge_dir CACHE_DIR name version) = false).
    { simpl. apply isdir_rmtree. }
    split; [|split; [|split; [|split]]].
    + revert Hdir. unfold admin_purge, purge_dir, purge_doc.
      destruct version as [[|c v]|]; simpl; rewrite ?Hcons; by intros ->.
    + intros k Hk. simpl. by apply rmtree_lookup_under.
    + intros k Hk. simpl. by apply rmtree_lookup_other.
    + intros v Hv. simpl. apply Hgone.
      destruct version as [[|c v']|]; simpl; [apply Hwhole| |apply Hwhole].
      destruct Hv as [?|[= <-]]; done.
    + intros n. rewrite purged_again_not_found by done. by apply purge_not_found.
  - intros Hfault. revert Hdir. unfold admin_purge, purge_dir.
    destruct fault as [removed|]; [|done].
    destruct version as [[|c v]|]; simpl; rewrite ?Hcons; by intros ->.
Qed.

End Handlers.

(** * The statements on the small instance *)

Lemma tree_ok_empty : tree_ok ∅.
Proof. intros p f [n Hn]. by rewrite lookup_empty in Hn. Defined.

(** C2 fails on the code.  The upstream answers 200 with the five bytes 01
    02 03 04 05 in the chunks [01 02], [03], [04 05], and the second write
    fails.  The relay is built from a second [iter_content] on the
    stream that the copy loop has already read up to the failed chunk, so
    the client gets [04 05] only.  When it is [os.replace] that fails, the
    stream is consumed and the second [iter_content] raises: the reply is an
    unhandled exception. *)
Theorem relay_after_failed_write_is_partial :
  concat (body_chunks Demo.archive_response) = [x01; x02; x03; x04; x05] ∧
  (∃ b,
     (package_archive Demo.REAL_PUB Demo.CACHE_DIR (Demo.always Demo.archive_response)
        Demo.second_write_fails "foo" "1.0.0" Demo.empty_world).1
       = Response b 200 [] (Some "application/gzip") ∧
     delivered b = [x04; x05]) ∧
  (package_archive Demo.REAL_PUB Demo.CACHE_DIR (Demo.always Demo.archive_response)
     Demo.replace_fails "foo" "1.0.0" Demo.empty_world).1
    = Unhandled StreamConsumedError.
Proof.
  split; [reflexivity|]. split.
  - exists (Streamed [[x04; x05]] false). split; vm_compute; reflexivity.
  - vm_compute; reflexivity.
Qed.

(** C1 as stated fails: the second write fails and [os.remove] fails too
    (the code passes over that); the temporary file stays, with the two
    bytes written, though no lookup finds it. *)
Lemma failed_removal_leaves_temporary_file :
  let w' := (package_archive Demo.REAL_PUB Demo.CACHE_DIR (Demo.always Demo.archive_response)
               Demo.second_write_and_remove_fail "foo" "1.0.0" Demo.empty_world).2 in
  write_or_rename_fails Demo.second_write_and_remove_fail Demo.archive_response = true ∧
  disk w' !! path_add (archive_path Demo.CACHE_DIR "foo" "1.0.0") ".part"
    = Some (File [x01; x02]) ∧
  cached_tar_path Demo.CACHE_DIR "foo" "1.0.0" (disk w') = None.
Proof. vm_compute. repeat split; reflexivity. Qed.

(** C3 as stated fails: the upstream answers a miss with 206, a 2xx status;
    the handler passes the response through and nothing is stored. *)
Lemma archive_miss_206_is_passed_through :
  let out := package_archive Demo.REAL_PUB Demo.CACHE_DIR
               (Demo.always Demo.partial_content_response) no_faults
               "foo" "1.0.0" Demo.empty_world in
  cached_tar_path Demo.CACHE_DIR "foo" "1.0.0" (disk Demo.empty_world) = None ∧
  status_code Demo.partial_content_response = 206 ∧
  out.1 = Response (Buffered [x01; x02; x03; x04; x05]) 206
            [("Content-Type", "application/gzip"); ("Connection", "close")] None ∧
  disk out.2 = ∅ ∧
  cached_tar_path Demo.CACHE_DIR "foo" "1.0.0" (disk out.2) = None.
Proof. vm_compute. repeat split; reflexivity. Qed.

(** C5 as stated fails.  A request for foo 1.0.0 on an empty cache makes the
    version's directory and then fails to open the temporary file: the key
    is not cached, and the directory is there.  A purge of the key in that
    world answers [purged] with 200, and so does a purge of the whole
    package. *)
Lemma purge_of_uncached_key_is_purged :
  let w := (package_archive Demo.REAL_PUB Demo.CACHE_DIR (Demo.always Demo.archive_response)
              Demo.open_fails "foo" "1.0.0" Demo.empty_world).2 in
  cached_tar_path Demo.CACHE_DIR "foo" "1.0.0" (disk w) = None ∧
  (admin_purge Demo.CACHE_DIR None "foo" (Some "1.0.0") w).1
    = Jsonify (JObj [("status", JStr "purged"); ("package", JStr "foo");
                     ("version", JStr "1.0.0")]) 200 ∧
  (admin_purge Demo.CACHE_DIR None "foo" None w).1
    = Jsonify (JObj [("status", JStr "purged"); ("package", JStr "foo")]) 200.
Proof. vm_compute. repeat split; reflexivity. Qed.

(** C4 as stated fails: the upstream document has two version entries and a
    [latest] object with an archive link of its own; the returned document
    has three archive links, and the one of [latest] is the upstream's. *)
Lemma latest_archive_link_is_not_rewritten :
  ∃ doc vs,
    (api_package Demo.REAL_PUB Demo.url_for
       (Demo.always (Demo.metadata_response Demo.package_doc)) "foo" Demo.empty_world).1
      = Jsonify (JObj doc) 200 ∧
    dict_get "versions" doc = Some (JArr vs) ∧
    length vs = 2%nat ∧
    links (JObj doc)
      = [JStr "https://pub.dev/a/foo-1.1.0.tar.gz";
         JStr "http://mirror.local/packages/foo/versions/1.0.0.tar.gz";
         JStr "http://mirror.local/packages/foo/versions/1.1.0.tar.gz"].
Proof. eexists _, _. vm_compute. repeat split; reflexivity. Qed.

(** C8 fails on requests the service can get.  A POST that matches the
    fallback's route is answered 405 by the routing and no call is made to
    the upstream; and of a query with a repeated key the upstream gets the
    first value only. *)
Theorem fallback_loses_method_and_repeated_query :
  (method Demo.inbound = "POST" ∧
   ∀ allow path_ w,
     fallback_route Demo.REAL_PUB (Demo.always Demo.archive_response) allow path_
       Demo.inbound w = (Abort 405, w)) ∧
  (args Sample.inbound_repeated_key = [("q", "a"); ("q", "b")] ∧
   ∀ allow,
     sent (fallback_route Demo.REAL_PUB (Demo.always Demo.archive_response) allow
             "api/search" Sample.inbound_repeated_key Demo.empty_world).2
       = [{| q_method := "GET"; q_url := "https://pub.dev/api/search";
             q_params := Some [("q", "a")];
             q_headers := Some [];
             q_data := Some []; q_stream := true; q_timeout := 30 |}]).
Proof.
  split; (split; [reflexivity|]).
  - intros allow path_ w. reflexivity.
  - intros allow. vm_compute. reflexivity.
Qed.

Lemma population_is_atomic_witness :
  plain "foo" = true ∧ plain "1.0.0" = true ∧
  tree_ok (disk Demo.empty_world) ∧
  cached_tar_path Demo.CACHE_DIR "foo" "1.0.0" (disk Demo.empty_world) = None ∧
  write_or_rename_fails Demo.second_write_fails Demo.archive_response = true ∧
  cached_tar_path Demo.CACHE_DIR "foo" "1.0.0"
    (disk (package_archive Demo.REAL_PUB Demo.CACHE_DIR (Demo.always Demo.archive_response)
             Demo.second_write_fails "foo" "1.0.0" Demo.empty_world).2) = None.
Proof.
  split; [reflexivity|]. split; [reflexivity|].
  split; [exact tree_ok_empty|]. split; [reflexivity|]. split; [reflexivity|].
  destruct (population_is_atomic Demo.REAL_PUB Demo.CACHE_DIR
              (Demo.always Demo.archive_response) Demo.str Demo.second_write_fails
              "foo" "1.0.0" Demo.empty_world Demo.archive_response _
              eq_refl eq_refl eq_refl eq_refl (or_intror (conj eq_refl eq_refl)))
    as (_ & _ & _ & _ & Hmiss).
  destruct (Hmiss tree_ok_empty eq_refl) as [_ Hfail].
  apply Hfail. reflexivity.
Defined.

Lemma archive_miss_by_status_witness :
  cached_tar_path Demo.CACHE_DIR "foo" "1.0.0" (disk Demo.empty_world) = None ∧
  ∃ w',
    package_archive Demo.REAL_PUB Demo.CACHE_DIR (Demo.always Demo.archive_response)
      no_faults "foo" "1.0.0" Demo.empty_world
      = (SendFile (archive_path Demo.CACHE_DIR "foo" "1.0.0")
           (concat (body_chunks Demo.archive_response)) true, w') ∧
    disk w' !! archive_path Demo.CACHE_DIR "foo" "1.0.0"
      = Some (File (concat (body_chunks Demo.archive_response))).
Proof.
  split; [reflexivity|].
  apply (archive_miss_by_status Demo.REAL_PUB Demo.CACHE_DIR
           (Demo.always Demo.archive_response) no_faults "foo" "1.0.0"
           Demo.empty_world Demo.archive_response eq_refl eq_refl);
    reflexivity.
Defined.

Lemma api_package_rewrites_every_archive_link_witness :
  ∃ fields' vs',
    (api_package Demo.REAL_PUB Demo.url_for
       (Demo.always (Demo.metadata_response Demo.package_doc)) "foo" Demo.empty_world).1
      = Jsonify (JObj fields') 200 ∧
    dict_get "versions" fields' = Some (JArr vs') ∧
    length vs' = 2%nat ∧
    Forall2 (rewritten Demo.url_for "foo")
      [JObj [("version", JStr "1.0.0");
             ("archive_url", JStr "https://pub.dev/a/foo-1.0.0.tar.gz");
             ("published", JStr "2020-01-01")];
       JObj [("version", JStr "1.1.0");
             ("archive_url", JStr "https://pub.dev/a/foo-1.1.0.tar.gz")]] vs' ∧
    dict_without "versions" fields'
      = [("name", JStr "foo");
         ("latest", JObj [("version", JStr "1.1.0");
                          ("archive_url", JStr "https://pub.dev/a/foo-1.1.0.tar.gz")])] ∧
    strip_links (JObj fields')
      = JObj [("name", JStr "foo");
              ("latest", JObj [("version", JStr "1.1.0")]);
              ("versions",
               JArr [JObj [("version", JStr "1.0.0"); ("published", JStr "2020-01-01")];
                     JObj [("version", JStr "1.1.0")]])].
Proof.
  apply (api_package_rewrites_every_archive_link Demo.REAL_PUB Demo.url_for
           (Demo.always (Demo.metadata_response Demo.package_doc)) "foo" Demo.empty_world
           (Demo.metadata_response Demo.package_doc) _ _
           eq_refl eq_refl eq_refl eq_refl eq_refl).
  repeat (constructor; [eexists _, _, _; repeat split; reflexivity|]). constructor.
Defined.

Lemma api_package_version_sets_archive_url_witness :
  ∃ fields',
    (api_package_version Demo.REAL_PUB Demo.url_for
       (Demo.always (Demo.metadata_response (JObj [("version", JStr "1.0.0")])))
       "foo" "1.0.0" Demo.empty_world).1
      = Jsonify (JObj fields') 200 ∧
    fields' = [("version", JStr "1.0.0");
               ("archive_url",
                JStr "http://mirror.local/packages/foo/versions/1.0.0.tar.gz")] ∧
    dict_get "archive_url" fields'
      = Some (JStr "http://mirror.local/packages/foo/versions/1.0.0.tar.gz") ∧
    (∀ k, k ≠ "archive_url" →
          dict_get k fields' = dict_get k [("version", JStr "1.0.0")]) ∧
    dict_without "archive_url" fields' = [("version", JStr "1.0.0")].
Proof.
  exact (api_package_version_sets_archive_url Demo.REAL_PUB Demo.url_for
           (Demo.always (Demo.metadata_response (JObj [("version", JStr "1.0.0")])))
           "foo" "1.0.0" Demo.empty_world
           (Demo.metadata_response (JObj [("version", JStr "1.0.0")])) _
           eq_refl eq_refl eq_refl eq_refl).
Defined.

Lemma purge_by_directory_witness :
  plain "foo" = true ∧ plain "1.0.0" = true ∧
  isdir (disk Demo.cached_world) (purge_dir Demo.CACHE_DIR "foo" (Some "1.0.0")) = true ∧
  ∃ w',
    admin_purge Demo.CACHE_DIR None "foo" (Some "1.0.0") Demo.cached_world
      = (Jsonify (purge_doc "purged" "foo" (Some "1.0.0")) 200, w') ∧
    cached_tar_path Demo.CACHE_DIR "foo" "1.0.0" (disk w') = None ∧
    admin_purge Demo.CACHE_DIR None "foo" (Some "1.0.0") w'
      = (Jsonify (purge_doc "not_found" "foo" (Some "1.0.0")) 404, w').
Proof.
  split; [reflexivity|]. split; [reflexivity|]. split; [reflexivity|].
  destruct (purge_by_directory Demo.CACHE_DIR None "foo" (Some "1.0.0") Demo.cached_world
              eq_refl (λ v Hv, eq_trans (f_equal plain (eq_sym (Some_inj _ _ Hv))) eq_refl))
    as [_ Hpurged].
  destruct (proj1 (Hpurged eq_refl) eq_refl) as (w' & Hrun & _ & _ & Hgone & Hagain).
  exists w'. split; [exact Hrun|]. split; [|exact (Hagain 0%nat)]. apply Hgone. by right.
Defined.

Lemma prefetch_downloads_and_overwrites_witness :
  disk Demo.cached_world !! archive_path Demo.CACHE_DIR "foo" "1.0.0" = Some (File [xff]) ∧
  ∃ w',
    admin_prefetch Demo.REAL_PUB Demo.CACHE_DIR (Demo.always Demo.archive_response)
      Demo.str no_faults "foo" "1.0.0" Demo.cached_world
      = (Jsonify (JObj [("status", JStr "cached"); ("package", JStr "foo");
                        ("version", JStr "1.0.0");
                        ("path", JStr "/srv/pub/packages/foo/1.0.0/foo-1.0.0.tar.gz")])
           200, w') ∧
    disk w' !! archive_path Demo.CACHE_DIR "foo" "1.0.0"
      = Some (File [x01; x02; x03; x04; x05]).
Proof.
  split; [reflexivity|].
  exact (proj2 (prefetch_downloads_and_overwrites Demo.REAL_PUB Demo.CACHE_DIR
                  (Demo.always Demo.archive_response) Demo.str no_faults "foo" "1.0.0"
                  Demo.cached_world)
           Demo.archive_response eq_refl eq_refl eq_refl eq_refl eq_refl).
Defined.

Lemma transport_failure_is_bad_gateway_witness :
  (api_package Demo.REAL_PUB Demo.url_for Demo.unreachable "foo" Demo.cached_world).1
    = Abort 502 ∧
  (admin_prefetch Demo.REAL_PUB Demo.CACHE_DIR Demo.unreachable Demo.str no_faults
     "foo" "1.0.0" Demo.cached_world).1 = Abort 502 ∧
  disk (admin_prefetch Demo.REAL_PUB Demo.CACHE_DIR Demo.unreachable Demo.str no_faults
          "foo" "1.0.0" Demo.cached_world).2 = disk Demo.cached_world.
Proof.
  destruct (transport_failure_is_bad_gateway Demo.REAL_PUB Demo.CACHE_DIR
              Demo.unreachable Demo.str Demo.url_for no_faults "foo" "1.0.0" "x" Demo.inbound
              Demo.cached_world (λ q, eq_refl))
    as ([Hmeta _] & _ & _ & [Hpre Hdisk] & _).
  split; [exact Hmeta|]. split; [exact Hpre|exact Hdisk].
Defined.

Lemma relay_reply_shape_witness :
  (package_archive Demo.REAL_PUB Demo.CACHE_DIR (Demo.always Demo.archive_response)
     Demo.open_fails "foo" "1.0.0" Demo.empty_world).1
    = Response (Streamed [[x01; x02]; [x03]; [x04; x05]] false) 200 []
        (Some "application/gzip").
Proof.
  exact (proj2 (relay_reply_shape Demo.REAL_PUB Demo.CACHE_DIR
                  (Demo.always Demo.archive_response) Demo.open_fails "foo" "1.0.0"
                  Demo.empty_world Demo.archive_response eq_refl eq_refl eq_refl)
           eq_refl eq_refl).
Defined.


(** * Further properties *)

(** ** The lookup *)

Lemma cached_tar_path_unique (C : path) (name version : string)
    (d : gmap path node) (f : string) :
  isdir d (version_dir C name version) = true →
  is_Some (d !! (version_dir C name version ++ [f])) →
  endswith f ".tar.gz" = true →
  (∀ g, is_Some (d !! (version_dir C name version ++ [g])) →
        endswith g ".tar.gz" = true → g = f) →
  cached_tar_path C name version d = Some (version_dir C name version ++ [f]).
Proof.
  intros Hdir Hf He Huniq. unfold cached_tar_path. rewrite Hdir.
  destruct (head _) as [g|] eqn:Hh; simpl.
  - apply head_Some_elem_of, list_elem_of_filter in Hh as [Hg Hin].
    apply elem_of_listdir in Hin. apply Is_true_true in Hg.
    by rewrite (Huniq g Hin Hg).
  - apply head_None in Hh.
    assert (f ∈ filter (λ f, Is_true (endswith f ".tar.gz"))
              (listdir d (version_dir C name version))) as Hin.
    { apply list_elem_of_filter. split; [by apply Is_true_true|by apply elem_of_listdir]. }
    rewrite Hh in Hin. by apply elem_of_nil in Hin.
Qed.

(** X1. The lookup of a key finds nothing exactly when the version's
    directory is missing (or is no directory) or holds no entry whose name
    ends in [.tar.gz], an empty directory included; and what it finds is an
    entry of that directory whose name ends in [.tar.gz]. *)
Theorem lookup_scans_the_version_directory (C : path) (name version : string)
    (d : gmap path node) :
  (cached_tar_path C name version d = None ↔
   isdir d (version_dir C name version) = false ∨
   ∀ f, is_Some (d !! (version_dir C name version ++ [f])) → endswith f ".tar.gz" = false) ∧
  (∀ q, cached_tar_path C name version d = Some q →
        isdir d (version_dir C name version) = true ∧
        ∃ f, q = version_dir C name version ++ [f] ∧ is_Some (d !! q) ∧
             endswith f ".tar.gz" = true).
Proof.
  split.
  - split.
    + intros Hnone. destruct (isdir d (version_dir C name version)) eqn:Hdir; [right|by left].
      intros f Hf. destruct (endswith f ".tar.gz") eqn:He; [|done].
      unfold cached_tar_path in Hnone. rewrite Hdir in Hnone.
      apply fmap_None, head_None in Hnone.
      assert (f ∈ filter (λ f, Is_true (endswith f ".tar.gz"))
                (listdir d (version_dir C name version))) as Hin.
      { apply list_elem_of_filter. split; [by apply Is_true_true|by apply elem_of_listdir]. }
      rewrite Hnone in Hin. by apply elem_of_nil in Hin.
    + intros [Hdir|Hno]; [|by apply cached_tar_path_None_intro].
      unfold cached_tar_path. by rewrite Hdir.
  - intros q Hq. split.
    + unfold cached_tar_path in Hq. by destruct (isdir d _).
    + by apply cached_tar_path_Some.
Qed.

(** ** [os.makedirs] *)

Lemma elem_of_ancestors (p : path) (n : nat) : take n p ∈ ancestors p.
Proof.
  unfold ancestors. apply list_elem_of_fmap.
  destruct (decide (n ≤ length p)%nat) as [Hle|Hgt].
  - exists n. split; [done|]. apply elem_of_seq. lia.
  - exists (length p). split; [|apply elem_of_seq; lia].
    rewrite firstn_all. apply take_ge. lia.
Qed.

Lemma ancestors_take (p q : path) : q ∈ ancestors p → ∃ n, q = take n p.
Proof.
  unfold ancestors. intros (n & -> & _)%list_elem_of_fmap. by exists n.
Qed.

Lemma dirs_lookup_Some (p q : path) :
  q ∈ ancestors p →
  (list_to_map ((λ q, (q, Dir)) <$> ancestors p) : gmap path node) !! q = Some Dir.
Proof.
  intros Hq. apply elem_of_list_to_map_1'.
  - by intros y (q' & [= _ ->] & _)%list_elem_of_fmap.
  - apply list_elem_of_fmap. by exists q.
Qed.

Lemma dirs_lookup_is_Some (p q : path) :
  is_Some ((list_to_map ((λ q, (q, Dir)) <$> ancestors p) : gmap path node) !! q) →
  q ∈ ancestors p.
Proof.
  intros [n Hn]. apply elem_of_list_to_map_2 in Hn.
  by apply list_elem_of_fmap in Hn as (q' & [= -> _] & Hq').
Qed.

Lemma makedirs_lookup_other (p k : path) (d : gmap path node) :
  k ∉ ancestors p → makedirs p d !! k = d !! k.
Proof.
  intros Hk. unfold makedirs. apply lookup_union_l.
  destruct (_ !! k) eqn:Hl; [|done].
  exfalso. apply Hk, dirs_lookup_is_Some. by eexists.
Qed.

(** After [os.makedirs(p, exist_ok=True)] every ancestor of [p], and [p],
    is a directory, unless a file was in the way. *)
Lemma makedirs_lookup_ancestor (p : path) (n : nat) (d : gmap path node) :
  (∀ c, d !! take n p ≠ Some (File c)) →
  makedirs p d !! take n p = Some Dir.
Proof.
  intros Hfile. unfold makedirs. destruct (d !! take n p) as [[|c]|] eqn:Hd.
  - rewrite lookup_union_l'; [done|by eexists].
  - by destruct (Hfile c).
  - rewrite lookup_union_r by done. apply dirs_lookup_Some, elem_of_ancestors.
Qed.

Lemma makedirs_lookup_self (p : path) (d : gmap path node) :
  (∀ c, d !! p ≠ Some (File c)) → makedirs p d !! p = Some Dir.
Proof.
  intros Hfile. pose proof (makedirs_lookup_ancestor p (length p) d) as Hself.
  rewrite firstn_all in Hself. by apply Hself.
Qed.

Lemma makedirs_tree_ok (p : path) (d : gmap path node) :
  tree_ok d →
  (∀ n c, d !! take n p ≠ Some (File c)) →
  tree_ok (makedirs p d).
Proof.
  intros Hok Hfile q f Hin. unfold makedirs in Hin.
  apply lookup_union_is_Some in Hin as [Hd|Hnew].
  - unfold makedirs. rewrite lookup_union_l'; rewrite (Hok q f Hd); [done|by eexists].
  - apply dirs_lookup_is_Some, ancestors_take in Hnew as [n Hn].
    assert (q = take (length q) p) as ->.
    { pose proof (f_equal length Hn) as Hlen.
      rewrite length_app, length_take in Hlen. simpl in Hlen.
      apply (f_equal (take (length q))) in Hn.
      rewrite take_app_length, take_take in Hn.
      by replace (length q `min` n)%nat with (length q) in Hn by lia. }
    apply makedirs_lookup_ancestor. apply Hfile.
Qed.

(** ** Lookups in trees that agree on a version's directory *)

Lemma cached_tar_path_agree_None (C : path) (name version : string)
    (d1 d2 : gmap path node) :
  d1 !! version_dir C name version = d2 !! version_dir C name version →
  (∀ f, d1 !! (version_dir C name version ++ [f])
        = d2 !! (version_dir C name version ++ [f])) →
  cached_tar_path C name version d1 = None →
  cached_tar_path C name version d2 = None.
Proof.
  intros Hvd Hch Hnone.
  destruct (cached_tar_path C name version d2) as [q|] eqn:Hq; [|done].
  pose proof Hq as Hdir. unfold cached_tar_path in Hdir.
  destruct (isdir d2 _) eqn:Hd2; [|done]. clear Hdir.
  apply cached_tar_path_Some in Hq as (f & -> & Hin & He).
  rewrite <- Hch in Hin. unfold cached_tar_path, isdir in Hnone.
  unfold isdir in Hd2. rewrite Hvd, Hd2 in Hnone.
  destruct (d2 !! version_dir C name version) as [[|?]|]; try done.
  apply fmap_None, head_None in Hnone.
  assert (f ∈ filter (λ f, Is_true (endswith f ".tar.gz"))
            (listdir d1 (version_dir C name version))) as Hf.
  { apply list_elem_of_filter. split; [by apply Is_true_true|by apply elem_of_listdir]. }
  rewrite Hnone in Hf. by apply elem_of_nil in Hf.
Qed.

Lemma cached_tar_path_agree (C : path) (name version : string)
    (d1 d2 : gmap path node) :
  d1 !! version_dir C name version = d2 !! version_dir C name version →
  (∀ f, d1 !! (version_dir C name version ++ [f])
        = d2 !! (version_dir C name version ++ [f])) →
  (cached_tar_path C name version d1 = None ↔ cached_tar_path C name version d2 = None) ∧
  (∀ q, cached_tar_path C name version d1 = Some q → d1 !! q = d2 !! q).
Proof.
  intros Hvd Hch. split; [split|].
  - by apply cached_tar_path_agree_None.
  - by apply cached_tar_path_agree_None.
  - intros q (f & -> & _)%cached_tar_path_Some. apply Hch.
Qed.

Lemma snoc_ne_self (p : path) (f : string) : p ++ [f] ≠ p.
Proof. intros Heq. apply (f_equal length) in Heq. rewrite length_app in Heq. simpl in Heq. lia. Qed.

(** The directory of another key is no ancestor of the key's directory, and
    neither it nor what it holds is one of the key's two files. *)
Lemma other_key_apart (C : path) (name version name' version' : string) :
  (name', version') ≠ (name, version) →
  (version_dir C name' version' ∉ ancestors (version_dir C name version)) ∧
  (∀ f, (version_dir C name' version' ++ [f]) ∉ ancestors (version_dir C name version)) ∧
  (∀ k, k = version_dir C name' version' ∨ (∃ f, k = version_dir C name' version' ++ [f]) →
        k ≠ path_add (archive_path C name version) ".part" ∧
        k ≠ archive_path C name version).
Proof.
  intros Hne.
  assert (Hvd : version_dir C name' version' ≠ version_dir C name version).
  { unfold version_dir. intros Heq. apply app_inv_head in Heq. by injection Heq as -> ->. }
  assert (Hlen : length (version_dir C name' version') = length (version_dir C name version)).
  { unfold version_dir. by rewrite !length_app. }
  split; [|split].
  - intros [n Hn]%ancestors_take. apply Hvd. rewrite Hn.
    apply (f_equal length) in Hn. rewrite length_take, Hlen in Hn.
    apply take_ge. lia.
  - intros f [n Hn]%ancestors_take. apply (f_equal length) in Hn.
    rewrite length_take, length_app, Hlen in Hn. simpl in Hn. lia.
  - intros k Hk. rewrite tmp_in_version_dir. unfold archive_path.
    destruct Hk as [->|[f ->]]; split; intros Heq.
    + apply (f_equal length) in Heq. rewrite length_app, Hlen in Heq. simpl in Heq. lia.
    + apply (f_equal length) in Heq. rewrite length_app, Hlen in Heq. simpl in Heq. lia.
    + by apply app_inj_tail in Heq as [? _].
    + by apply app_inj_tail in Heq as [? _].
Qed.

Lemma rmtree_tree_ok (p : path) (d : gmap path node) : tree_ok d → tree_ok (rmtree p d).
Proof.
  intros Hok q f [n Hn]. unfold rmtree in Hn.
  apply map_lookup_filter_Some in Hn as [Hn Hpre]. simpl in Hpre.
  rewrite rmtree_lookup_other.
  - apply (Hok q f). by eexists.
  - intros Hp. apply Hpre. by apply prefix_app_r.
Qed.

Lemma rmtree_partly_lookup_other (p k : path) (removed : list path) (d : gmap path node) :
  ¬ p `prefix_of` k → rmtree_partly p removed d !! k = d !! k.
Proof.
  intros Hk. induction removed as [|q removed IH]; [done|]. simpl.
  destruct (decide (p `prefix_of` q ∧ q ≠ p)) as [[Hq _]|_]; [|done].
  rewrite rmtree_lookup_other; [done|]. intros Hqk. apply Hk. by etrans.
Qed.

Lemma rmtree_partly_tree_ok (p : path) (removed : list path) (d : gmap path node) :
  tree_ok d → tree_ok (rmtree_partly p removed d).
Proof.
  intros Hok. induction removed as [|q removed IH]; [done|]. simpl.
  destruct (decide (p `prefix_of` q ∧ q ≠ p)); [|done]. by apply rmtree_tree_ok.
Qed.

(** ** Failing populations *)

(** How the [try] ends when something fails; the exception is the one of
    the first failure. *)
Lemma save_archive_Raise plan tmp fin r w :
  write_or_rename_fails plan r || broken r = true →
  ∃ e s w',
    save_archive plan tmp fin r w = (Raise e, s, w') ∧
    (broken r = false → e = OSError) ∧
    (write_or_rename_fails plan r = false → e = ChunkedEncodingError).
Proof.
  unfold save_archive, write_or_rename_fails. intros Hbad.
  destruct (open_raises plan) eqn:Hopen; [by exists OSError; eexists _, _|].
  simpl in Hbad |- *.
  assert (Hend : ∀ w2,
    write_chunks plan tmp 0 (body_chunks r) (broken r) (put (open_wb tmp (disk w)) w)
      = (if broken r then Raise ChunkedEncodingError else Ok (), [], w2) →
    replace_raises plan || broken r = true →
    ∃ e s w',
      (let '(res, rest, w2) :=
         write_chunks plan tmp 0 (body_chunks r) (broken r) (put (open_wb tmp (disk w)) w) in
       match res with
       | Ok _ =>
           if replace_raises plan
           then (Raise OSError, {| pending := []; content_consumed := true |}, w2)
           else (Ok (), {| pending := []; content_consumed := true |},
                 put (replace_ tmp fin (disk w2)) w2)
       | Raise e => (Raise e, {| pending := rest; content_consumed := false |}, w2)
       end) = (Raise e, s, w') ∧
      (broken r = false → e = OSError) ∧
      (replace_raises plan = false → e = ChunkedEncodingError)).
  { intros w2 -> Hb. destruct (broken r).
    - by exists ChunkedEncodingError; eexists _, _.
    - rewrite orb_false_r in Hb. rewrite Hb. by exists OSError; eexists _, _. }
  destruct (write_raises plan) as [[j n]|] eqn:Hplan.
  - destruct (decide (j < writes_needed (body_chunks r))%nat) as [Hj|Hj].
    + edestruct (write_chunks_fault plan) as (b & c & rest & w' & _ & _ & ->);
        [exact Hplan|split; [apply Nat.le_0_l|exact Hj]|].
      exists OSError. rewrite bool_decide_eq_true_2 by done. by eexists _, _.
    + rewrite bool_decide_eq_false_2 in Hbad |- * by done.
      edestruct (write_chunks_unreached plan tmp (body_chunks r) 0 (broken r)) as [w2 Hrun].
      { intros j' n' Hj'. rewrite Hplan in Hj'. injection Hj' as <- <-. simpl. lia. }
      by apply (Hend w2).
  - edestruct (write_chunks_unreached plan tmp (body_chunks r) 0 (broken r)) as [w2 Hrun].
    { intros j' n' Hj'. by rewrite Hplan in Hj'. }
    by apply (Hend w2).
Qed.

Section Composition.

Variable REAL_PUB : string.
Variable CACHE_DIR : path.
Variable net : urequest → option uresponse.
Variable str : exn → string.

(** The two populating endpoints when the upstream gives no 200: nothing but
    the call is recorded. *)
Lemma no_200_no_population plan name version w :
  let q := get_request REAL_PUB (archive_upstream_path name version) true in
  (net q = None ∨ ∃ r, net q = Some r ∧ status_code r ≠ 200) →
  (admin_prefetch REAL_PUB CACHE_DIR net str plan name version w).2 = note q w ∧
  (cached_tar_path CACHE_DIR name version (disk w) = None →
   (package_archive REAL_PUB CACHE_DIR net plan name version w).2 = note q w).
Proof.
  intros q Hnet. subst q.
  unfold admin_prefetch, package_archive, fetch_upstream, requests_request.
  fold (archive_upstream_path name version).
  fold (get_request REAL_PUB (archive_upstream_path name version) true).
  destruct Hnet as [->|(r & -> & Hst)].
  - split; [done|]. by intros ->.
  - cbn [q_stream get_request negb andb]. apply Z.eqb_neq in Hst. rewrite Hst.
    split; [done|]. by intros ->.
Qed.

(** What a population leaves, whatever the upstream does: the world with the
    call recorded, or the world after the [try] and its [except]. *)
Lemma population_cases plan name version w w' :
  let q := get_request REAL_PUB (archive_upstream_path name version) true in
  let fin := archive_path CACHE_DIR name version in
  let tmp := path_add fin ".part" in
  populated_from REAL_PUB CACHE_DIR net str plan name version w w' →
  w' = note q w ∨
  ∃ r res s w3,
    net q = Some r ∧ status_code r = 200 ∧ makedirs_raises plan = false ∧
    save_archive plan tmp fin r
      (put (makedirs (version_dir CACHE_DIR name version) (disk w)) (note q w))
      = (res, s, w3) ∧
    w' = match res with Ok _ => w3 | Raise _ => remove_partial plan tmp w3 end.
Proof.
  intros q fin tmp Hw'.
  destruct (net q) as [r|] eqn:Hnet.
  - destruct (decide (status_code r = 200)) as [Hst|Hst].
    + destruct (population_world REAL_PUB CACHE_DIR net str plan name version w r w'
                  Hnet Hst Hw') as [[_ ->]|(Hmk & res & s & w3 & Hrun & ->)]; [by left|].
      right. by exists r, res, s, w3.
    + left. destruct (no_200_no_population plan name version w) as [Hpre Harch].
      { right. by exists r. }
      destruct Hw' as [->|[Hmiss ->]]; auto.
  - left. destruct (no_200_no_population plan name version w) as [Hpre Harch].
    { by left. }
    destruct Hw' as [->|[Hmiss ->]]; auto.
Qed.

(** Away from the two files of the key, a population changes the tree as
    [os.makedirs] does, or not at all. *)
Lemma population_frame plan name version w w' :
  populated_from REAL_PUB CACHE_DIR net str plan name version w w' →
  disk w' = disk w ∨
  ∀ k, k ≠ path_add (archive_path CACHE_DIR name version) ".part" →
       k ≠ archive_path CACHE_DIR name version →
       disk w' !! k = makedirs (version_dir CACHE_DIR name version) (disk w) !! k.
Proof.
  intros Hw'. apply population_cases in Hw'
    as [->|(r & res & s & w3 & _ & _ & _ & Hrun & ->)]; [by left|right].
  destruct (population_states REAL_PUB CACHE_DIR net plan name version w r res s w3 Hrun)
    as (_ & _ & [Hfr _] & _).
  exact Hfr.
Qed.

(** X2. The two populating endpoints run the same population: on a miss, a
    prefetch and a request for the archive leave the same cache tree, the
    same history of the tree and the same record of upstream calls, whatever
    the upstream answers and whichever disk calls fail. *)
Theorem prefetch_and_miss_leave_the_same_world plan name version w :
  cached_tar_path CACHE_DIR name version (disk w) = None →
  (admin_prefetch REAL_PUB CACHE_DIR net str plan name version w).2
    = (package_archive REAL_PUB CACHE_DIR net plan name version w).2.
Proof.
  intros Hmiss.
  destruct (net (get_request REAL_PUB (archive_upstream_path name version) true))
    as [r|] eqn:Hnet.
  - destruct (decide (status_code r = 200)) as [Hst|Hst].
    + rewrite (admin_prefetch_200 REAL_PUB CACHE_DIR net str plan name version w r) by done.
      rewrite (package_archive_miss_200 REAL_PUB CACHE_DIR net plan name version w r) by done.
      cbv zeta. destruct (makedirs_raises plan); [done|].
      by destruct (save_archive _ _ _ _ _) as [[[u|e] s] w3].
    + destruct (no_200_no_population plan name version w) as [-> Harch].
      { right. by exists r. }
      by rewrite Harch.
  - destruct (no_200_no_population plan name version w) as [-> Harch].
    { by left. }
    by rewrite Harch.
Qed.

(** X3. A prefetch that fails after [os.makedirs] answers 500 with a JSON
    error that carries [str] of the exception: an [OSError] when the stream
    is sound (so that [open], a write or the rename failed), the stream's
    error when no write and no rename fails.  A failure of [os.makedirs]
    itself is outside the [try]: the exception leaves the view. *)
Theorem prefetch_failure_is_500 plan name version w r :
  net (get_request REAL_PUB (archive_upstream_path name version) true) = Some r →
  status_code r = 200 →
  (makedirs_raises plan = true →
   (admin_prefetch REAL_PUB CACHE_DIR net str plan name version w).1 = Unhandled OSError) ∧
  (makedirs_raises plan = false →
   write_or_rename_fails plan r || broken r = true →
   ∃ e,
     (admin_prefetch REAL_PUB CACHE_DIR net str plan name version w).1
       = Jsonify (JObj [("status", JStr "error"); ("error", JStr (str e))]) 500 ∧
     (broken r = false → e = OSError) ∧
     (write_or_rename_fails plan r = false → e = ChunkedEncodingError)).
Proof.
  intros Hnet Hst.
  rewrite (admin_prefetch_200 REAL_PUB CACHE_DIR net str plan name version w r) by done.
  cbv zeta. split; [by intros ->|]. intros -> Hbad.
  destruct (save_archive_Raise plan
              (path_add (archive_path CACHE_DIR name version) ".part")
              (archive_path CACHE_DIR name version) r
              (put (makedirs (version_dir CACHE_DIR name version) (disk w))
                 (note (get_request REAL_PUB (archive_upstream_path name version) true) w))
              Hbad) as (e & s & w' & -> & He).
  by exists e.
Qed.

(** After [os.makedirs] the version's directory is a directory, in the
    world a population leaves, whether the population succeeded or not. *)
Lemma population_keeps_directory plan name version w w' r :
  net (get_request REAL_PUB (archive_upstream_path name version) true) = Some r →
  status_code r = 200 →
  makedirs_raises plan = false →
  creatable CACHE_DIR name version (disk w) →
  populated_from REAL_PUB CACHE_DIR net str plan name version w w' →
  isdir (disk w') (version_dir CACHE_DIR name version) = true.
Proof.
  intros Hnet Hst Hmk (Hfile & _ & _) Hw'.
  destruct (population_world REAL_PUB CACHE_DIR net str plan name version w r w'
              Hnet Hst Hw') as [[Hmk' _]|(_ & res & s & w3 & Hrun & ->)]; [congruence|].
  destruct (population_states REAL_PUB CACHE_DIR net plan name version w r res s w3 Hrun)
    as (_ & _ & [Hfr _] & _).
  unfold isdir. rewrite Hfr.
  - specialize (Hfile (length (version_dir CACHE_DIR name version))).
    rewrite firstn_all in Hfile. by rewrite makedirs_lookup_self.
  - rewrite tmp_in_version_dir. intros Heq. symmetry in Heq. by apply snoc_ne_self in Heq.
  - unfold archive_path. intros Heq. symmetry in Heq. by apply snoc_ne_self in Heq.
Qed.



(** X5. Population, then purge, for a name and a version that are plain
    path components.  Once [os.makedirs] has run, the version's directory is
    there whether the population succeeded or failed, so a purge of the key
    in which [shutil.rmtree] does not raise answers [purged] with 200; after
    it the lookup of the key finds nothing and the final file is gone. *)
Theorem population_then_purge plan name version w w' r :
  plain name = true →
  plain version = true →
  net (get_request REAL_PUB (archive_upstream_path name version) true) = Some r →
  status_code r = 200 →
  makedirs_raises plan = false →
  creatable CACHE_DIR name version (disk w) →
  populated_from REAL_PUB CACHE_DIR net str plan name version w w' →
  (admin_purge CACHE_DIR None name (Some version) w').1
    = Jsonify (JObj [("status", JStr "purged"); ("package", JStr name);
                     ("version", JStr version)]) 200 ∧
  cached_tar_path CACHE_DIR name version
    (disk (admin_purge CACHE_DIR None name (Some version) w').2) = None ∧
  disk (admin_purge CACHE_DIR None name (Some version) w').2
    !! archive_path CACHE_DIR name version = None.
Proof.
  intros _ Hv Hnet Hst Hmk Hcr Hw'.
  pose proof (population_keeps_directory plan name version w w' r Hnet Hst Hmk Hcr Hw')
    as Hdir.
  unfold admin_purge. destruct version as [|c v]; [done|].
  assert (Hcons : (CACHE_DIR ++ [name]) ++ [String c v]
                  = version_dir CACHE_DIR name (String c v)).
  { unfold version_dir. by rewrite <- app_assoc. }
  rewrite Hcons, Hdir. simpl. split; [done|]. split.
  - unfold cached_tar_path. by rewrite isdir_rmtree.
  - apply rmtree_lookup_under. unfold archive_path. by apply prefix_app_r.
Qed.

(** X6. Among keys whose names and versions are plain path components, a
    population for one key leaves every other key alone: the directory of
    another (name', version') and all it holds are as before, so its lookup
    finds something exactly when it did, and the file it finds is
    unchanged. *)
Theorem population_leaves_other_keys plan name version name' version' w w' :
  plain name = true → plain version = true →
  plain name' = true → plain version' = true →
  (name', version') ≠ (name, version) →
  populated_from REAL_PUB CACHE_DIR net str plan name version w w' →
  disk w' !! version_dir CACHE_DIR name' version'
    = disk w !! version_dir CACHE_DIR name' version' ∧
  (∀ f, disk w' !! (version_dir CACHE_DIR name' version' ++ [f])
        = disk w !! (version_dir CACHE_DIR name' version' ++ [f])) ∧
  (cached_tar_path CACHE_DIR name' version' (disk w') = None ↔
   cached_tar_path CACHE_DIR name' version' (disk w) = None) ∧
  (∀ q, cached_tar_path CACHE_DIR name' version' (disk w') = Some q →
        disk w' !! q = disk w !! q).
Proof.
  intros _ _ _ _ Hne Hw'.
  destruct (other_key_apart CACHE_DIR name version name' version' Hne)
    as (Hvd & Hch & Hfiles).
  assert (Hsame : ∀ k,
    k = version_dir CACHE_DIR name' version' ∨
    (∃ f, k = version_dir CACHE_DIR name' version' ++ [f]) →
    disk w' !! k = disk w !! k).
  { intros k Hk. destruct (population_frame plan name version w w' Hw') as [->|Hfr]; [done|].
    destruct (Hfiles k Hk) as [Htmp Hfin]. rewrite Hfr by done.
    apply makedirs_lookup_other. by destruct Hk as [->|[f ->]]. }
  assert (Hself : disk w' !! version_dir CACHE_DIR name' version'
                  = disk w !! version_dir CACHE_DIR name' version') by (apply Hsame; auto).
  assert (Hchildren : ∀ f, disk w' !! (version_dir CACHE_DIR name' version' ++ [f])
                           = disk w !! (version_dir CACHE_DIR name' version' ++ [f])).
  { intros f. apply Hsame. right. by exists f. }
  split; [done|]. split; [done|]. by apply cached_tar_path_agree.
Qed.

(** X7. Among keys whose names and versions are plain path components, a
    purge leaves the keys it does not name alone, also when [shutil.rmtree]
    raises part-way: for a key of another package, or of another version
    when a version is purged, the directory and all it holds are as before,
    so its lookup finds something exactly when it did, and the file it finds
    is unchanged.  A purge makes no call to the upstream. *)
Theorem purge_leaves_other_keys fault name version name' version' w :
  plain name = true → (∀ v, version = Some v → plain v = true) →
  plain name' = true → plain version' = true →
  name' ≠ name ∨ (∃ c v, version = Some (String c v) ∧ version' ≠ String c v) →
  let w' := (admin_purge CACHE_DIR fault name version w).2 in
  sent w' = sent w ∧
  disk w' !! version_dir CACHE_DIR name' version'
    = disk w !! version_dir CACHE_DIR name' version' ∧
  (∀ f, disk w' !! (version_dir CACHE_DIR name' version' ++ [f])
        = disk w !! (version_dir CACHE_DIR name' version' ++ [f])) ∧
  (cached_tar_path CACHE_DIR name' version' (disk w') = None ↔
   cached_tar_path CACHE_DIR name' version' (disk w) = None) ∧
  (∀ q, cached_tar_path CACHE_DIR name' version' (disk w') = Some q →
        disk w' !! q = disk w !! q).
Proof.
  intros _ _ _ _ Hother w'.
  assert (Hapart : ∀ k,
    version_dir CACHE_DIR name' version' `prefix_of` k →
    ¬ purge_dir CACHE_DIR name version `prefix_of` k).
  { intros k [t ->] [u Hu]. unfold version_dir, purge_dir in Hu.
    destruct Hother as [Hn|(c & v & -> & Hv)].
    - destruct version as [[|c v]|]; rewrite <- !app_assoc in Hu;
        apply app_inv_head in Hu; by injection Hu.
    - rewrite <- !app_assoc in Hu. apply app_inv_head in Hu. by injection Hu. }
  assert (Hcases : w' = w ∨
            (sent w' = sent w ∧
             (disk w' = rmtree (purge_dir CACHE_DIR name version) (disk w) ∨
              ∃ removed,
                disk w' = rmtree_partly (purge_dir CACHE_DIR name version) removed (disk w)))).
  { subst w'. unfold admin_purge, purge_dir.
    destruct version as [[|c v]|]; simpl; rewrite <- ?app_assoc; simpl;
      destruct (isdir (disk w) _); destruct fault; simpl; eauto. }
  assert (Hsame : ∀ k, version_dir CACHE_DIR name' version' `prefix_of` k →
                       disk w' !! k = disk w !! k).
  { intros k Hk. destruct Hcases as [->|[_ [->|[removed ->]]]]; [done| |].
    - apply rmtree_lookup_other. by apply Hapart.
    - apply rmtree_partly_lookup_other. by apply Hapart. }
  split; [by destruct Hcases as [->|[? _]]|].
  assert (Hself : disk w' !! version_dir CACHE_DIR name' version'
                  = disk w !! version_dir CACHE_DIR name' version') by by apply Hsame.
  assert (Hchildren : ∀ f, disk w' !! (version_dir CACHE_DIR name' version' ++ [f])
                           = disk w !! (version_dir CACHE_DIR name' version' ++ [f])).
  { intros f. apply Hsame. by apply prefix_app_r. }
  split; [done|]. split; [done|]. by apply cached_tar_path_agree.
Qed.

(** X8. The handlers keep the cache tree well-formed (every entry lies in a
    directory): a purge always, also when [shutil.rmtree] raises part-way; a
    population (prefetch, or a request for the archive) on a tree where
    nothing is in the way, whatever the upstream answers and whichever disk
    calls fail. *)
Theorem handlers_keep_the_tree_well_formed plan name version w :
  tree_ok (disk w) →
  (∀ fault v, tree_ok (disk (admin_purge CACHE_DIR fault name v w).2)) ∧
  (creatable CACHE_DIR name version (disk w) →
   tree_ok (disk (admin_prefetch REAL_PUB CACHE_DIR net str plan name version w).2) ∧
   tree_ok (disk (package_archive REAL_PUB CACHE_DIR net plan name version w).2)).
Proof.
  intros Hok. split.
  - intros fault v. unfold admin_purge.
    destruct v as [[|c v]|]; destruct (isdir (disk w) _); destruct fault; simpl;
      try done; (by apply rmtree_tree_ok) || by apply rmtree_partly_tree_ok.
  - intros (Hfile & Htmp & Hfin).
    assert (Hpop : ∀ w',
      populated_from REAL_PUB CACHE_DIR net str plan name version w w' → tree_ok (disk w')).
    { intros w' Hw'.
      destruct (population_frame plan name version w w' Hw') as [->|Hfr]; [done|].
      pose proof (makedirs_tree_ok (version_dir CACHE_DIR name version) (disk w) Hok Hfile)
        as Hbase.
      assert (Hvd : disk w' !! version_dir CACHE_DIR name version = Some Dir).
      { rewrite Hfr.
        - specialize (Hfile (length (version_dir CACHE_DIR name version))).
          rewrite firstn_all in Hfile. by apply makedirs_lookup_self.
        - rewrite tmp_in_version_dir. intros Heq. symmetry in Heq.
          by apply snoc_ne_self in Heq.
        - unfold archive_path. intros Heq. symmetry in Heq. by apply snoc_ne_self in Heq. }
      intros q f Hin.
      destruct (decide (q ++ [f] = path_add (archive_path CACHE_DIR name version) ".part"))
        as [Heq|Hk].
      { rewrite tmp_in_version_dir in Heq. by apply app_inj_tail in Heq as [-> _]. }
      destruct (decide (q ++ [f] = archive_path CACHE_DIR name version)) as [Heq|Hk'].
      { unfold archive_path in Heq. by apply app_inj_tail in Heq as [-> _]. }
      rewrite Hfr in Hin by done. apply Hbase in Hin.
      rewrite Hfr; [done| |].
      - intros ->. rewrite makedirs_lookup_below in Hin.
        + done.
        + rewrite tmp_in_version_dir. apply below_version_dir.
      - intros ->. rewrite makedirs_lookup_below in Hin.
        + done.
        + unfold archive_path. apply below_version_dir. }
    split; [apply Hpop; by left|].
    destruct (cached_tar_path CACHE_DIR name version (disk w)) as [tar|] eqn:Hmiss.
    + unfold package_archive. by rewrite Hmiss.
    + apply Hpop. by right.
Qed.

(** X15. The relay after a failed write is short.  On a miss answered 200,
    when the temporary file was opened and a write that the copy loop gets to
    fails, the reply is a relay with status 200 whose body is an end piece of
    the upstream body, strictly shorter than it: the bytes the copy loop had
    read, the chunk of the failed write included, do not reach the
    client. *)
Theorem relay_after_failed_write_is_short plan name version w r j n :
  cached_tar_path CACHE_DIR name version (disk w) = None →
  net (get_request REAL_PUB (archive_upstream_path name version) true) = Some r →
  status_code r = 200 →
  makedirs_raises plan = false →
  open_raises plan = false →
  write_raises plan = Some (j, n) →
  (j < writes_needed (body_chunks r))%nat →
  ∃ b,
    (package_archive REAL_PUB CACHE_DIR net plan name version w).1
      = Response b 200 []
          (Some (headers_get "content-type" "application/octet-stream" (headers r))) ∧
    delivered b `suffix_of` concat (body_chunks r) ∧
    (length (delivered b) < length (concat (body_chunks r)))%nat.
Proof.
  intros Hmiss Hnet Hst Hmk Hopen Hplan Hj.
  destruct (relay_after_failed_write REAL_PUB CACHE_DIR net plan name version w r j n
              Hmiss Hnet Hst Hmk Hopen Hplan Hj) as (before & chunk & rest & Hsplit & Hc & ->).
  exists (Streamed rest (broken r)). split; [done|]. simpl. rewrite Hsplit.
  rewrite concat_app. simpl. split.
  - exists (concat before ++ chunk). by rewrite <- app_assoc.
  - rewrite !length_app. destruct chunk; [done|]. simpl. lia.
Qed.

End Composition.

(** ** The metadata endpoints *)

Lemma dict_set_set {V} (k : string) (v : V) d :
  dict_set k v (dict_set k v d) = dict_set k v d.
Proof.
  induction d as [|[k' v'] d IH]; simpl.
  - by rewrite decide_True.
  - destruct (decide (k' = k)) as [->|Hne]; simpl.
    + by rewrite decide_True.
    + by rewrite decide_False, IH.
Qed.

Lemma rstrip_slash_snoc (s : string) : rstrip_slash (s +:+ "/") = rstrip_slash s.
Proof. induction s as [|c s IH]; simpl; [done|]. by rewrite IH. Qed.

Lemma rstrip_slash_idem (s : string) : rstrip_slash (rstrip_slash s) = rstrip_slash s.
Proof.
  induction s as [|c s IH]; simpl; [done|].
  destruct (rstrip_slash s) as [|a t] eqn:Hs.
  - destruct (decide (c = "/"%char)) as [->|Hc]; simpl; [done|].
    by rewrite decide_False.
  - change (rstrip_slash (String c (String a t)))
      with (match rstrip_slash (String a t) with
            | EmptyString =>
                if decide (c = "/"%char) then EmptyString else String c EmptyString
            | u => String c u
            end).
    by rewrite IH.
Qed.

Section MoreMetadata.

Variable REAL_PUB : string.
Variable url_for : string → json → string.
Variable net : urequest → option uresponse.

Lemma rewrite_version_object name fields :
  ∃ v', rewrite_version url_for name (JObj fields) = Ok v' ∧
        (has_version (JObj fields) → rewritten url_for name (JObj fields) v') ∧
        (¬ has_version (JObj fields) → v' = JObj fields).
Proof.
  simpl. destruct (dict_get "version" fields) as [ver|] eqn:Hver.
  - destruct (truthy ver) eqn:Ht.
    + eexists. split; [done|]. split.
      * intros _. exists fields, (dict_set "archive_url" (JStr (url_for name ver)) fields), ver.
        repeat split; try done; [apply dict_get_set_eq|apply dict_without_set].
      * intros Hno. destruct Hno. by exists fields, ver.
    + eexists. split; [done|]. split; [|done].
      intros (f & ver' & [= <-] & Hv & Ht'). congruence.
  - eexists. split; [done|]. split; [|done].
    intros (f & ver' & [= <-] & Hv & _). congruence.
Qed.

Lemma rewrite_versions_objects name vs :
  Forall is_object vs →
  ∃ vs', rewrite_versions url_for name vs = Ok vs' ∧
         Forall2 (λ v v', (has_version v → rewritten url_for name v v') ∧
                          (¬ has_version v → v' = v)) vs vs'.
Proof.
  induction 1 as [|v vs [fields ->] _ (vs' & Hvs' & IH)]; simpl.
  - by exists [].
  - destruct (rewrite_version_object name fields) as (v' & Hv' & Hrel).
    simpl in Hv'. rewrite Hv', Hvs'. simpl. exists (v' :: vs'). split; [done|].
    by constructor.
Qed.

Lemma rewrite_versions_not_object name vs :
  Exists (λ v, ¬ is_object v) vs →
  rewrite_versions url_for name vs = Raise AttributeError.
Proof.
  induction 1 as [v vs Hv|v vs _ IH]; simpl.
  - destruct v; try done. destruct Hv. by eexists.
  - rewrite IH. destruct (rewrite_version url_for name v) as [v'|e] eqn:Hv; [done|].
    destruct v; simpl in Hv; try by injection Hv as <-.
    destruct (dict_get "version" fields) as [ver|]; [destruct (truthy ver)|]; done.
Qed.

Lemma api_package_200 name w r :
  net (get_request REAL_PUB ("/api/packages/" +:+ name) false) = Some r →
  broken r = false →
  status_code r = 200 →
  api_package REAL_PUB url_for net name w
    = (match json_ r with
       | None => Unhandled JSONDecodeError
       | Some data =>
           match rewrite_archive_urls url_for name data with
           | Ok data' => Jsonify data' 200
           | Raise e => Unhandled e
           end
       end, note (get_request REAL_PUB ("/api/packages/" +:+ name) false) w).
Proof.
  intros Hnet Hbr Hst. unfold api_package, fetch_upstream, requests_request.
  fold (get_request REAL_PUB ("/api/packages/" +:+ name) false).
  rewrite Hnet. cbn [q_stream get_request negb andb]. rewrite Hbr, Hst.
  change (negb (200 =? 200)) with false. cbv iota.
  destruct (json_ r) as [data|]; [|done].
  by destruct (rewrite_archive_urls url_for name data).
Qed.

(** X9. Package metadata, entry by entry.  When the upstream answers 200
    with an object whose [versions] is a list of objects, the reply is the
    document with that list rewritten in place: an entry with a version that
    Python takes as true gets the proxy's archive URL for that version, and
    an entry without one (no [version] key, or an empty or null version) is
    returned as it is, its archive link untouched.  A document without
    [versions] is returned unchanged. *)
Theorem api_package_rewrites_entry_by_entry name w r fields :
  net (get_request REAL_PUB ("/api/packages/" +:+ name) false) = Some r →
  broken r = false →
  status_code r = 200 →
  json_ r = Some (JObj fields) →
  (dict_get "versions" fields = None →
   (api_package REAL_PUB url_for net name w).1 = Jsonify (JObj fields) 200) ∧
  (∀ vs, dict_get "versions" fields = Some (JArr vs) →
         Forall is_object vs →
         ∃ vs',
           (api_package REAL_PUB url_for net name w).1
             = Jsonify (JObj (dict_set "versions" (JArr vs') fields)) 200 ∧
           Forall2 (λ v v', (has_version v → rewritten url_for name v v') ∧
                            (¬ has_version v → v' = v)) vs vs').
Proof.
  intros Hnet Hbr Hst Hjs. rewrite (api_package_200 name w r) by done. rewrite Hjs.
  simpl. split.
  - by intros ->.
  - intros vs -> Hobj. destruct (rewrite_versions_objects name vs Hobj) as (vs' & -> & Hrel).
    by exists vs'.
Qed.

(** X10. Package metadata of an unexpected shape.  When the upstream answers
    200 and the body is not JSON, or is JSON but no object, or its
    [versions] is a list that holds something that is no object, or is a
    number, a boolean or null, the view raises ([JSONDecodeError],
    [AttributeError], [AttributeError], [TypeError]): the reply is an
    unhandled exception, not a pass-through. *)
Theorem api_package_fails_on_unexpected_shape name w r :
  net (get_request REAL_PUB ("/api/packages/" +:+ name) false) = Some r →
  broken r = false →
  status_code r = 200 →
  (json_ r = None →
   (api_package REAL_PUB url_for net name w).1 = Unhandled JSONDecodeError) ∧
  (∀ data, json_ r = Some data → ¬ is_object data →
           (api_package REAL_PUB url_for net name w).1 = Unhandled AttributeError) ∧
  (∀ fields vs, json_ r = Some (JObj fields) →
                dict_get "versions" fields = Some (JArr vs) →
                Exists (λ v, ¬ is_object v) vs →
                (api_package REAL_PUB url_for net name w).1 = Unhandled AttributeError) ∧
  (∀ fields x, json_ r = Some (JObj fields) →
               dict_get "versions" fields = Some x →
               x = JNull ∨ (∃ b, x = JBool b) ∨ (∃ n, x = JNum n) →
               (api_package REAL_PUB url_for net name w).1 = Unhandled TypeError).
Proof.
  intros Hnet Hbr Hst. rewrite (api_package_200 name w r) by done.
  split; [by intros ->|]. split; [|split].
  - intros data -> Hno. destruct data; try done. destruct Hno. by eexists.
  - intros fields vs -> Hvs Hbad. simpl. rewrite Hvs.
    by rewrite (rewrite_versions_not_object name vs Hbad).
  - intros fields x -> Hx Hkind. simpl. rewrite Hx.
    by destruct Hkind as [->|[[b ->]|[n ->]]].
Qed.

(** X11. Rewriting is idempotent: a document that the rewriter has produced
    is left as it is by a second pass (a proxy behind a proxy with the same
    URLs changes nothing more). *)
Theorem rewrite_archive_urls_idempotent name data data' :
  rewrite_archive_urls url_for name data = Ok data' →
  rewrite_archive_urls url_for name data' = Ok data'.
Proof.
  assert (Hone : ∀ v v', rewrite_version url_for name v = Ok v' →
                         rewrite_version url_for name v' = Ok v').
  { intros v v' Hv. destruct v; try done. simpl in Hv.
    destruct (dict_get "version" fields) as [ver|] eqn:Hver.
    - destruct (truthy ver) eqn:Ht; injection Hv as <-; simpl.
      + rewrite dict_get_set_ne by done. by rewrite Hver, Ht, dict_set_set.
      + by rewrite Hver, Ht.
    - injection Hv as <-. simpl. by rewrite Hver. }
  assert (Hall : ∀ vs vs', rewrite_versions url_for name vs = Ok vs' →
                           rewrite_versions url_for name vs' = Ok vs').
  { induction vs as [|v vs IH]; intros vs' Hvs; simpl in Hvs.
    - by injection Hvs as <-.
    - destruct (rewrite_version url_for name v) as [v'|] eqn:Hv; [|done].
      destruct (rewrite_versions url_for name vs) as [vs''|] eqn:Hvs''; [|done].
      simpl in Hvs. injection Hvs as <-. simpl.
      by rewrite (Hone v v' Hv), (IH vs'' eq_refl). }
  intros Hrw. destruct data; try done. simpl in Hrw.
  destruct (dict_get "versions" fields) as [x|] eqn:Hx.
  - destruct x; try done.
    + destruct (String.eqb s EmptyString) eqn:Hs; [|done].
      injection Hrw as <-. simpl. by rewrite Hx, Hs.
    + destruct (rewrite_versions url_for name items) as [vs'|] eqn:Hvs; [|done].
      simpl in Hrw. injection Hrw as <-. simpl.
      rewrite dict_get_set_eq, (Hall items vs' Hvs). simpl. by rewrite dict_set_set.
    + destruct fields0; [|done]. injection Hrw as <-. simpl. by rewrite Hx.
  - injection Hrw as <-. simpl. by rewrite Hx.
Qed.

(** X12. An upstream answer that is not a 200, at the two metadata
    endpoints and at prefetch.  When its body can be read, the reply has the
    upstream's status, the items of [r.headers] as they are and [r.content]
    as body, that is, the body as [requests] decoded it.  When reading the
    body fails, the metadata endpoints, which do not stream, answer 502, and
    at prefetch, which streams, the exception of [r.content] leaves the
    view.  Prefetch stores nothing either way: the tree and its history are
    as they were. *)
Theorem non_200_is_passed_through (CACHE_DIR : path) (str : exn → string) plan
    name version w r :
  status_code r ≠ 200 →
  (net (get_request REAL_PUB ("/api/packages/" +:+ name) false) = Some r →
   (broken r = false →
    (api_package REAL_PUB url_for net name w).1
      = Response (Buffered (concat (body_chunks r))) (status_code r) (headers r) None) ∧
   (broken r = true → (api_package REAL_PUB url_for net name w).1 = Abort 502)) ∧
  (net (get_request REAL_PUB
          ("/api/packages/" +:+ name +:+ "/versions/" +:+ version +:+ ".json") false)
     = Some r →
   (broken r = false →
    (api_package_version REAL_PUB url_for net name version w).1
      = Response (Buffered (concat (body_chunks r))) (status_code r) (headers r) None) ∧
   (broken r = true →
    (api_package_version REAL_PUB url_for net name version w).1 = Abort 502)) ∧
  (net (get_request REAL_PUB (archive_upstream_path name version) true) = Some r →
   (broken r = false →
    (admin_prefetch REAL_PUB CACHE_DIR net str plan name version w).1
      = Response (Buffered (concat (body_chunks r))) (status_code r) (headers r) None) ∧
   (broken r = true →
    (admin_prefetch REAL_PUB CACHE_DIR net str plan name version w).1
      = Unhandled ChunkedEncodingError) ∧
   disk (admin_prefetch REAL_PUB CACHE_DIR net str plan name version w).2 = disk w ∧
   seen (admin_prefetch REAL_PUB CACHE_DIR net str plan name version w).2 = seen w).
Proof.
  intros Hst. apply Z.eqb_neq in Hst.
  unfold api_package, api_package_version, admin_prefetch, fetch_upstream, requests_request.
  fold (archive_upstream_path name version).
  fold (get_request REAL_PUB ("/api/packages/" +:+ name) false).
  fold (get_request REAL_PUB
          ("/api/packages/" +:+ name +:+ "/versions/" +:+ version +:+ ".json") false).
  fold (get_request REAL_PUB (archive_upstream_path name version) true).
  split; [|split]; intros ->; cbn [q_stream get_request negb andb];
    destruct (broken r) eqn:Hb; simpl; rewrite ?Hst; simpl;
    unfold pass_through, content; rewrite ?Hb; done.
Qed.

(** X13. Metadata is always fetched and never cached: each metadata endpoint
    makes exactly one call to the upstream, a buffered GET of the metadata
    path with no query, headers or body, and leaves the cache tree and its
    history as they were, whatever the upstream answers. *)
Theorem metadata_is_fetched_live name version w :
  let w1 := (api_package REAL_PUB url_for net name w).2 in
  let w2 := (api_package_version REAL_PUB url_for net name version w).2 in
  (sent w1 = sent w ++ [get_request REAL_PUB ("/api/packages/" +:+ name) false] ∧
   disk w1 = disk w ∧ seen w1 = seen w) ∧
  (sent w2 = sent w ++ [get_request REAL_PUB
                          ("/api/packages/" +:+ name +:+ "/versions/" +:+ version
                             +:+ ".json") false] ∧
   disk w2 = disk w ∧ seen w2 = seen w).
Proof.
  unfold api_package, api_package_version, fetch_upstream.
  fold (get_request REAL_PUB ("/api/packages/" +:+ name) false).
  fold (get_request REAL_PUB
          ("/api/packages/" +:+ name +:+ "/versions/" +:+ version +:+ ".json") false).
  split.
  - destruct (requests_request net _) as [r|]; [|done].
    destruct (negb _); [done|]. destruct (json_ r) as [data|]; [|done].
    by destruct (rewrite_archive_urls url_for name data).
  - destruct (requests_request net _) as [r|]; [|done].
    destruct (negb _); [done|]. by destruct (json_ r) as [[]|].
Qed.

(** X14. Trailing slashes of the upstream base URL do not matter: with one
    more slash at its end, or stripped beforehand as at startup, every call
    to the upstream is the same, from [fetch_upstream] and from the
    fallback. *)
Theorem upstream_base_url_is_stripped path_ stream_ params headers_ method_ data req w :
  fetch_upstream (REAL_PUB +:+ "/") net path_ stream_ params headers_ method_ data w
    = fetch_upstream REAL_PUB net path_ stream_ params headers_ method_ data w ∧
  fetch_upstream (rstrip_slash REAL_PUB) net path_ stream_ params headers_ method_ data w
    = fetch_upstream REAL_PUB net path_ stream_ params headers_ method_ data w ∧
  proxy_fallback (REAL_PUB +:+ "/") net path_ req w = proxy_fallback REAL_PUB net path_ req w ∧
  proxy_fallback (rstrip_slash REAL_PUB) net path_ req w
    = proxy_fallback REAL_PUB net path_ req w.
Proof.
  unfold fetch_upstream, proxy_fallback.
  by rewrite rstrip_slash_snoc, rstrip_slash_idem.
Qed.

End MoreMetadata.


(** ** Two populations of one key at the same time *)

Lemma write_chunks_no_faults (tmp : path) (chunks : list bytes) :
  ∀ i w, ∃ w',
    write_chunks no_faults tmp i chunks false w = (Ok (), [], w') ∧
    disk w' = foldl (λ d c, append_file tmp c d) (disk w) (filter (λ c, c ≠ []) chunks).
Proof.
  induction chunks as [|chunk chunks IH]; intros i w; simpl.
  - by eexists.
  - destruct chunk as [|b chunk].
    + rewrite filter_cons_False by (by intros ?). apply IH.
    + rewrite filter_cons_True by done. simpl.
      destruct (IH (S i) (put (append_file tmp (b :: chunk) (disk w)) w)) as (w' & Hrun & Hd).
      exists w'. split; [exact Hrun|exact Hd].
Qed.

Lemma run_steps_app (C : path) (name version : string) (ss ss' : list fs_step)
    (d : gmap path node) :
  run_steps C name version (ss ++ ss') d
    = run_steps C name version ss' (run_steps C name version ss d).
Proof. apply foldl_app. Qed.

Lemma run_steps_writes (C : path) (name version : string) (cs : list bytes)
    (d : gmap path node) :
  run_steps C name version (WriteTmp <$> cs) d
    = foldl (λ d c, append_file (path_add (archive_path C name version) ".part") c d) d cs.
Proof. revert d. induction cs as [|c cs IH]; intros d; [done|]. simpl. apply IH. Qed.

Lemma writes_frame (tmp k : path) (cs : list bytes) (d : gmap path node) :
  k ≠ tmp → foldl (λ d c, append_file tmp c d) d cs !! k = d !! k.
Proof.
  intros Hk. revert d. induction cs as [|c cs IH]; intros d; [done|]. simpl.
  rewrite IH. by apply append_file_lookup_ne.
Qed.

Lemma interleaving_nil_l {A} (l : list A) : interleaving [] l l.
Proof. induction l; by constructor. Qed.

Lemma interleaving_app_l {A} (p a b l : list A) :
  interleaving a b l → interleaving (p ++ a) b (p ++ l).
Proof. intros H. induction p; [done|]. simpl. by constructor. Qed.

Section Racing.

Variable REAL_PUB : string.
Variable CACHE_DIR : path.
Variable net : urequest → option uresponse.
Variable str : exn → string.

(** A population that meets no fault leaves the tree its steps make. *)
Lemma population_runs_its_steps name version w r :
  net (get_request REAL_PUB (archive_upstream_path name version) true) = Some r →
  status_code r = 200 →
  broken r = false →
  disk (admin_prefetch REAL_PUB CACHE_DIR net str no_faults name version w).2
    = run_steps CACHE_DIR name version (population_steps r) (disk w).
Proof.
  intros Hnet Hst Hbr.
  rewrite (admin_prefetch_200 REAL_PUB CACHE_DIR net str no_faults name version w r)
    by done.
  cbv zeta. cbn [makedirs_raises no_faults]. unfold save_archive.
  cbn [open_raises replace_raises no_faults]. rewrite Hbr.
  set (tmp := path_add (archive_path CACHE_DIR name version) ".part").
  set (w1 := put (open_wb tmp _) _).
  destruct (write_chunks_no_faults tmp (body_chunks r) 0 w1) as (w2 & -> & Hd).
  cbn [snd disk put]. rewrite Hd. subst w1. cbn [disk put].
  unfold population_steps.
  change (Makedirs :: OpenTmp :: ?l) with ([Makedirs; OpenTmp] ++ l).
  rewrite !run_steps_app, run_steps_writes. reflexivity.
Qed.

(** X16. Two populations of one key that run at the same time share the
    temporary file, and can publish a truncated archive.  Taken alone, a
    population that meets no fault leaves the tree its file-system steps
    make.  The steps of two populations of the key can be interleaved so
    that the second opens the temporary file (which truncates it) after the
    first has written the body and before the first renames it: the rename
    then puts an empty file in place of the archive, and a lookup of the
    key finds it. *)
Theorem racing_populations_publish_a_truncated_file name version w r r' :
  let fin := archive_path CACHE_DIR name version in
  let d' := run_steps CACHE_DIR name version (truncating_schedule r) (disk w) in
  (net (get_request REAL_PUB (archive_upstream_path name version) true) = Some r →
   status_code r = 200 →
   broken r = false →
   disk (admin_prefetch REAL_PUB CACHE_DIR net str no_faults name version w).2
     = run_steps CACHE_DIR name version (population_steps r) (disk w)) ∧
  (∃ rest, interleaving (population_steps r) (population_steps r')
             (truncating_schedule r ++ rest)) ∧
  d' !! fin = Some (File []) ∧
  (creatable CACHE_DIR name version (disk w) →
   only_final CACHE_DIR name version (disk w) →
   cached_tar_path CACHE_DIR name version d' = Some fin).
Proof.
  intros fin d'. split; [apply population_runs_its_steps|]. split.
  { exists ((WriteTmp <$> filter (λ c, c ≠ []) (body_chunks r')) ++ [ReplaceTmp]).
    unfold population_steps, truncating_schedule.
    simpl. do 2 apply interleaving_left. rewrite <- app_assoc.
    apply interleaving_app_l. simpl.
    do 2 apply interleaving_right. apply interleaving_left, interleaving_nil_l. }
  set (vd := version_dir CACHE_DIR name version).
  set (tmp := path_add fin ".part").
  set (d3 := foldl (λ d c, append_file tmp c d) (open_wb tmp (makedirs vd (disk w)))
               (filter (λ c, c ≠ []) (body_chunks r))).
  assert (Hd' : d' = replace_ tmp fin (open_wb tmp (makedirs vd d3))).
  { subst d'. unfold truncating_schedule.
    change (Makedirs :: OpenTmp :: ?l) with ([Makedirs; OpenTmp] ++ l).
    by rewrite !run_steps_app, run_steps_writes. }
  assert (Htmp : open_wb tmp (makedirs vd d3) !! tmp = Some (File [])).
  { apply lookup_insert_eq. }
  pose proof (tmp_in_version_dir CACHE_DIR name version) as Htmpdir.
  pose proof (tmp_ne_fin CACHE_DIR name version) as Hne.
  fold fin tmp vd in Htmpdir, Hne.
  split; [rewrite Hd'; by apply replace_lookup_dst|].
  intros (Hfile & _ & _) Honly.
  assert (Hvd_tmp : vd ≠ tmp).
  { rewrite Htmpdir. intros Heq. symmetry in Heq. by apply snoc_ne_self in Heq. }
  assert (Hvd_fin : vd ≠ fin).
  { unfold fin, archive_path. intros Heq. symmetry in Heq. by apply snoc_ne_self in Heq. }
  assert (Hbelow : ∀ k, k ≠ tmp → k ≠ fin → (length vd < length k)%nat →
                        d' !! k = disk w !! k).
  { intros k Hk Hk' Hlen. rewrite Hd', replace_lookup_other by done.
    unfold open_wb at 1. rewrite lookup_insert_ne by done.
    rewrite makedirs_lookup_below by done. unfold d3. rewrite writes_frame by done.
    unfold open_wb. rewrite lookup_insert_ne by done.
    by apply makedirs_lookup_below. }
  assert (Hdir : isdir d' vd = true).
  { unfold isdir. rewrite Hd', replace_lookup_other by done.
    unfold open_wb at 1. rewrite lookup_insert_ne by done.
    rewrite makedirs_lookup_self; [done|]. intros c.
    unfold d3. rewrite writes_frame by done.
    unfold open_wb. rewrite lookup_insert_ne by done.
    rewrite makedirs_lookup_self; [done|]. intros c'.
    specialize (Hfile (length vd) c'). by rewrite firstn_all in Hfile. }
  unfold fin, archive_path. fold vd.
  apply cached_tar_path_unique; [exact Hdir| |apply endswith_archive_name|].
  - fold (archive_path CACHE_DIR name version). fold fin.
    rewrite Hd'. erewrite replace_lookup_dst; [by eexists|exact Htmp].
  - intros g Hg He.
    destruct (decide (vd ++ [g] = fin)) as [Heq|Hk].
    { unfold fin, archive_path in Heq. fold vd in Heq. by apply app_inj_tail in Heq as [_ ?]. }
    destruct (decide (vd ++ [g] = tmp)) as [Heq|Hk'].
    { rewrite Htmpdir in Heq. apply app_inj_tail in Heq as [_ ->].
      by rewrite endswith_part in He. }
    rewrite Hbelow in Hg; [|done|done|apply below_version_dir].
    specialize (Honly g Hg He). by fold vd fin in Honly.
Qed.

End Racing.

(** * The further statements on the small instance *)

Lemma creatable_empty (C : path) (name version : string) : creatable C name version ∅.
Proof. repeat split; intros; by rewrite lookup_empty. Defined.

Lemma only_final_empty (C : path) (name version : string) : only_final C name version ∅.
Proof. intros f [n Hn]. by rewrite lookup_empty in Hn. Defined.

Lemma prefetch_and_miss_leave_the_same_world_witness :
  (admin_prefetch Demo.REAL_PUB Demo.CACHE_DIR (Demo.always Demo.archive_response) Demo.str
     Demo.second_write_fails "foo" "1.0.0" Demo.empty_world).2
    = (package_archive Demo.REAL_PUB Demo.CACHE_DIR (Demo.always Demo.archive_response)
         Demo.second_write_fails "foo" "1.0.0" Demo.empty_world).2.
Proof.
  exact (prefetch_and_miss_leave_the_same_world Demo.REAL_PUB Demo.CACHE_DIR
           (Demo.always Demo.archive_response) Demo.str Demo.second_write_fails
           "foo" "1.0.0" Demo.empty_world eq_refl).
Defined.

Lemma prefetch_failure_is_500_witness :
  ∃ e,
    (admin_prefetch Demo.REAL_PUB Demo.CACHE_DIR (Demo.always Demo.archive_response) Demo.str
       Demo.second_write_fails "foo" "1.0.0" Demo.empty_world).1
      = Jsonify (JObj [("status", JStr "error"); ("error", JStr (Demo.str e))]) 500 ∧
    e = OSError.
Proof.
  destruct (proj2 (prefetch_failure_is_500 Demo.REAL_PUB Demo.CACHE_DIR
                     (Demo.always Demo.archive_response) Demo.str Demo.second_write_fails
                     "foo" "1.0.0" Demo.empty_world Demo.archive_response eq_refl eq_refl)
              eq_refl eq_refl) as (e & Hreply & He & _).
  exists e. split; [exact Hreply|exact (He eq_refl)].
Defined.


Lemma population_then_purge_witness :
  let w' := (package_archive Demo.REAL_PUB Demo.CACHE_DIR (Demo.always Demo.archive_response)
               Demo.open_fails "foo" "1.0.0" Demo.empty_world).2 in
  (admin_purge Demo.CACHE_DIR None "foo" (Some "1.0.0") w').1
    = Jsonify (JObj [("status", JStr "purged"); ("package", JStr "foo");
                     ("version", JStr "1.0.0")]) 200.
Proof.
  exact (proj1 (population_then_purge Demo.REAL_PUB Demo.CACHE_DIR
                  (Demo.always Demo.archive_response) Demo.str Demo.open_fails
                  "foo" "1.0.0" Demo.empty_world _ Demo.archive_response
                  eq_refl eq_refl eq_refl eq_refl eq_refl (creatable_empty _ _ _)
                  (or_intror (conj eq_refl eq_refl)))).
Defined.

Lemma population_leaves_other_keys_witness :
  let w' := (admin_prefetch Demo.REAL_PUB Demo.CACHE_DIR (Demo.always Demo.archive_response)
               Demo.str Demo.second_write_fails "foo" "2.0.0" Demo.cached_world).2 in
  disk w' !! (version_dir Demo.CACHE_DIR "foo" "1.0.0" ++ ["foo-1.0.0.tar.gz"])
    = Some (File [xff]).
Proof.
  assert (Hne : ("foo", "1.0.0") ≠ ("foo", "2.0.0")) by discriminate.
  exact (eq_trans
           (proj1 (proj2 (population_leaves_other_keys Demo.REAL_PUB Demo.CACHE_DIR
                            (Demo.always Demo.archive_response) Demo.str
                            Demo.second_write_fails "foo" "2.0.0" "foo" "1.0.0"
                            Demo.cached_world _ eq_refl eq_refl eq_refl eq_refl
                            Hne (or_introl eq_refl)))
              "foo-1.0.0.tar.gz")
           eq_refl).
Defined.

Lemma purge_leaves_other_keys_witness :
  let w' := (admin_purge Demo.CACHE_DIR None "foo" (Some "2.0.0") Demo.cached_world).2 in
  disk w' !! (version_dir Demo.CACHE_DIR "foo" "1.0.0" ++ ["foo-1.0.0.tar.gz"])
    = Some (File [xff]).
Proof.
  assert (Hother : "foo" ≠ "foo" ∨
            ∃ c v, Some "2.0.0" = Some (String c v) ∧ "1.0.0" ≠ String c v).
  { right. eexists _, _. split; [reflexivity|discriminate]. }
  exact (eq_trans
           (proj1 (proj2 (proj2 (purge_leaves_other_keys Demo.CACHE_DIR None
                                   "foo" (Some "2.0.0") "foo" "1.0.0" Demo.cached_world
                                   eq_refl
                                   (λ v Hv, eq_trans (f_equal plain (eq_sym (Some_inj _ _ Hv)))
                                              eq_refl)
                                   eq_refl eq_refl Hother)))
              "foo-1.0.0.tar.gz")
           eq_refl).
Defined.

Lemma handlers_keep_the_tree_well_formed_witness :
  tree_ok (disk (admin_prefetch Demo.REAL_PUB Demo.CACHE_DIR
                   (Demo.always Demo.archive_response) Demo.str Demo.second_write_fails
                   "foo" "1.0.0" Demo.empty_world).2).
Proof.
  exact (proj1 (proj2 (handlers_keep_the_tree_well_formed Demo.REAL_PUB Demo.CACHE_DIR
                         (Demo.always Demo.archive_response) Demo.str
                         Demo.second_write_fails "foo" "1.0.0" Demo.empty_world
                         tree_ok_empty)
                  (creatable_empty _ _ _))).
Defined.

Lemma api_package_rewrites_entry_by_entry_witness :
  ∃ vs',
    (api_package Demo.REAL_PUB Demo.url_for
       (Demo.always (Demo.metadata_response (JObj Sample.ragged_doc_fields)))
       "foo" Demo.empty_world).1
      = Jsonify (JObj (dict_set "versions" (JArr vs') Sample.ragged_doc_fields)) 200 ∧
    vs' !! 1%nat = Some (JObj [("archive_url", JStr "https://pub.dev/a/foo-draft.tar.gz")]).
Proof.
  destruct (proj2 (api_package_rewrites_entry_by_entry Demo.REAL_PUB Demo.url_for
                     (Demo.always (Demo.metadata_response (JObj Sample.ragged_doc_fields)))
                     "foo" Demo.empty_world
                     (Demo.metadata_response (JObj Sample.ragged_doc_fields))
                     Sample.ragged_doc_fields eq_refl eq_refl eq_refl eq_refl)
              _ eq_refl) as (vs' & Hreply & Hrel).
  { repeat constructor; by eexists. }
  exists vs'. split; [exact Hreply|].
  apply Forall2_cons_inv_l in Hrel as (v1 & vs1 & _ & Hrel & ->).
  apply Forall2_cons_inv_l in Hrel as (v2 & vs2 & [_ Hkeep] & _ & ->).
  simpl. f_equal. apply Hkeep. intros (fields & ver & [= <-] & Hver & _). discriminate.
Defined.

Lemma api_package_fails_on_unexpected_shape_witness :
  (api_package Demo.REAL_PUB Demo.url_for
     (Demo.always (Demo.metadata_response (JObj Sample.broken_doc_fields)))
     "foo" Demo.empty_world).1 = Unhandled AttributeError.
Proof.
  apply (proj1 (proj2 (proj2 (api_package_fails_on_unexpected_shape Demo.REAL_PUB
                                Demo.url_for
                                (Demo.always
                                   (Demo.metadata_response (JObj Sample.broken_doc_fields)))
                                "foo" Demo.empty_world
                                (Demo.metadata_response (JObj Sample.broken_doc_fields))
                                eq_refl eq_refl eq_refl)))
           Sample.broken_doc_fields [JStr "1.0.0"] eq_refl eq_refl).
  apply Exists_cons_hd. by intros [fields ?].
Defined.

Lemma rewrite_archive_urls_idempotent_witness :
  ∃ data',
    rewrite_archive_urls Demo.url_for "foo" Demo.package_doc = Ok data' ∧
    rewrite_archive_urls Demo.url_for "foo" data' = Ok data'.
Proof.
  eexists. split; [reflexivity|].
  apply (rewrite_archive_urls_idempotent Demo.url_for "foo" Demo.package_doc).
  reflexivity.
Defined.

Lemma non_200_is_passed_through_witness :
  (api_package Demo.REAL_PUB Demo.url_for (Demo.always Sample.not_found_response)
     "foo" Demo.empty_world).1
    = Response (Buffered [x7b; x7d]) 404 [("Content-Type", "application/json")] None.
Proof.
  assert (Hst : status_code Sample.not_found_response ≠ 200) by discriminate.
  exact (proj1 (proj1 (non_200_is_passed_through Demo.REAL_PUB Demo.url_for
                         (Demo.always Sample.not_found_response) Demo.CACHE_DIR Demo.str
                         no_faults "foo" "1.0.0" Demo.empty_world Sample.not_found_response
                         Hst) eq_refl) eq_refl).
Defined.

Lemma relay_after_failed_write_is_short_witness :
  ∃ b,
    (package_archive Demo.REAL_PUB Demo.CACHE_DIR (Demo.always Demo.archive_response)
       Demo.second_write_fails "foo" "1.0.0" Demo.empty_world).1
      = Response b 200 [] (Some "application/gzip") ∧
    delivered b `suffix_of` [x01; x02; x03; x04; x05] ∧
    (length (delivered b) < 5)%nat.
Proof.
  assert (Hj : (1 < writes_needed (body_chunks Demo.archive_response))%nat).
  { vm_compute. lia. }
  exact (relay_after_failed_write_is_short Demo.REAL_PUB Demo.CACHE_DIR
           (Demo.always Demo.archive_response) Demo.second_write_fails "foo" "1.0.0"
           Demo.empty_world Demo.archive_response 1%nat 0%nat
           eq_refl eq_refl eq_refl eq_refl eq_refl eq_refl Hj).
Defined.

Lemma fallback_route_replays_witness :
  method Sample.inbound_get ∈ ["GET"; "HEAD"] ∧
  NoDup (req_headers Sample.inbound_get).*1 ∧
  NoDup (args Sample.inbound_get).*1 ∧
  sent (fallback_route Demo.REAL_PUB (Demo.always Demo.archive_response) "GET, HEAD, OPTIONS"
          "help" Sample.inbound_get Demo.empty_world).2
    = [{| q_method := "GET"; q_url := "https://pub.dev/help";
          q_params := Some [("q", "a"); ("page", "2")];
          q_headers := Some [("Accept", "*/*"); ("User-Agent", "dart")];
          q_data := Some []; q_stream := true; q_timeout := 30 |}].
Proof.
  assert (Hm : method Sample.inbound_get ∈ ["GET"; "HEAD"]).
  { apply (bool_decide_unpack _). vm_compute. exact I. }
  assert (Hnd : NoDup (req_headers Sample.inbound_get).*1).
  { apply (bool_decide_unpack _). vm_compute. exact I. }
  assert (Hargs : NoDup (args Sample.inbound_get).*1).
  { apply (bool_decide_unpack _). vm_compute. exact I. }
  split; [exact Hm|]. split; [exact Hnd|]. split; [exact Hargs|].
  exact (proj1 (fallback_route_replays Demo.REAL_PUB (Demo.always Demo.archive_response)
                  "GET, HEAD, OPTIONS" "help" Sample.inbound_get Demo.empty_world
                  Hm Hnd Hargs)).
Defined.

Lemma racing_populations_publish_a_truncated_file_witness :
  concat (body_chunks Demo.archive_response) = [x01; x02; x03; x04; x05] ∧
  cached_tar_path Demo.CACHE_DIR "foo" "1.0.0"
    (run_steps Demo.CACHE_DIR "foo" "1.0.0" (truncating_schedule Demo.archive_response)
       (disk Demo.empty_world))
    = Some (archive_path Demo.CACHE_DIR "foo" "1.0.0") ∧
  run_steps Demo.CACHE_DIR "foo" "1.0.0" (truncating_schedule Demo.archive_response)
    (disk Demo.empty_world) !! archive_path Demo.CACHE_DIR "foo" "1.0.0"
    = Some (File []).
Proof.
  split; [reflexivity|].
  destruct (racing_populations_publish_a_truncated_file Demo.REAL_PUB Demo.CACHE_DIR
              (Demo.always Demo.archive_response) Demo.str "foo" "1.0.0" Demo.empty_world
              Demo.archive_response Demo.archive_response)
    as (_ & _ & Hfin & Hfound).
  split; [|exact Hfin].
  exact (Hfound (creatable_empty _ _ _) (only_final_empty _ _ _)).
Defined.
